(** * INVASE: instance-wise variable selection, selector loss and training loop

    A shallow embedding of [INVASE.py]: the custom policy-gradient loss
    [my_loss], the Bernoulli sampler [Sample_M], the constructor, one
    iteration of [train] and the two scoring methods [output] and
    [get_prediction].

    Numbers.  The tensors of the program hold IEEE floats.  A finite float is
    idealised as a real number (no rounding, no overflow) and a decimal
    literal as the number it writes; infinities and NaN are collapsed into
    one absorbing value [NonFinite].
    Every operation of the loss ([+], [-], [*], negation, [log], division by
    an element count) maps a non-finite operand to a non-finite result, so the
    collapse loses nothing that the loss can observe. *)

From Stdlib Require Import String Reals Lra Lia Arith Bool List.
Import ListNotations.

Set Implicit Arguments.

(** ** Idealised floats *)

Inductive fnum : Type :=
| Fin (r : R)
| NonFinite.

Definition fadd (a b : fnum) : fnum :=
  match a, b with
  | Fin x, Fin y => Fin (x + y)
  | _, _ => NonFinite
  end.

Definition fsub (a b : fnum) : fnum :=
  match a, b with
  | Fin x, Fin y => Fin (x - y)
  | _, _ => NonFinite
  end.

Definition fmul (a b : fnum) : fnum :=
  match a, b with
  | Fin x, Fin y => Fin (x * y)
  | _, _ => NonFinite
  end.

Definition fneg (a : fnum) : fnum :=
  match a with
  | Fin x => Fin (- x)
  | NonFinite => NonFinite
  end.

(** [log 0] is [-inf] and the logarithm of a negative number is NaN. *)
Definition flog (a : fnum) : fnum :=
  match a with
  | Fin x => if Rlt_dec 0 x then Fin (ln x) else NonFinite
  | NonFinite => NonFinite
  end.

(** Division of a sum by the number of summed elements, as [reduce_mean]
    does it; with no element it is [0/0], a NaN. *)
Definition fdiv_count (a : fnum) (k : nat) : fnum :=
  match a, k with
  | Fin x, S _ => Fin (x / INR k)
  | _, _ => NonFinite
  end.

Definition is_finite (a : fnum) : Prop := exists r, a = Fin r.

Definition real_of (a : fnum) : R :=
  match a with
  | Fin r => r
  | NonFinite => 0
  end.

(** The guard added before every logarithm, [1e-8]. *)
Definition eps : R := 1 / 100000000.

(** ** Exceptions *)

Inductive exn : Type :=
| AttributeError (attr : string)
| ValueError (msg : string)
| IndexError (msg : string)
| RuntimeError (msg : string)
| InvalidArgumentError (msg : string).

Inductive res (A : Type) : Type :=
| Ok (a : A)
| Raise (e : exn).

Arguments Ok {A} a.
Arguments Raise {A} e.

Definition bind {A B : Type} (c : res A) (k : A -> res B) : res B :=
  match c with
  | Ok a => k a
  | Raise e => Raise e
  end.

Notation "x <- c ;; k" := (bind c (fun x => k))
  (at level 61, c at next level, right associativity).

(** ** Tensors of rank 1 and 2

    A rank-2 tensor carries its shape: with no row the width cannot be read
    off the rows, and the broadcasting rules look at it. *)

Definition tensor1 : Type := list fnum.

Record tensor2 : Type := T2 {
  dim0 : nat;
  dim1 : nat;
  rows : list (list fnum)
}.

Definition wf2 (t : tensor2) : Prop :=
  length (rows t) = dim0 t /\ Forall (fun r => length r = dim1 t) (rows t).

Definition entry (t : tensor2) (i j : nat) : fnum :=
  nth j (nth i (rows t) []) NonFinite.

Definition at2 (t : tensor2) (i j : nat) : R := real_of (entry t i j).

(** [t[:, start:stop]]; a slice bound beyond the width is clamped to it, and
    [stop = None] is the open slice [t[:, start:]]. *)
Definition slice_cols (start : nat) (stop : option nat) (t : tensor2) : tensor2 :=
  let hi := match stop with Some b => Nat.min b (dim1 t) | None => dim1 t end in
  let lo := Nat.min start (dim1 t) in
  T2 (dim0 t) (hi - lo)
     (map (fun r => firstn (hi - lo) (skipn lo r)) (rows t)).

Definition map2d (f : fnum -> fnum) (t : tensor2) : tensor2 :=
  T2 (dim0 t) (dim1 t) (map (map f) (rows t)).

(** [t + c], [c - t] and [log t] with a Python scalar [c]. *)
Definition add_scalar (t : tensor2) (c : R) : tensor2 := map2d (fun v => fadd v (Fin c)) t.
Definition rsub_scalar (c : R) (t : tensor2) : tensor2 := map2d (fun v => fsub (Fin c) v) t.
Definition log2d (t : tensor2) : tensor2 := map2d flog t.

Fixpoint zip_with {A B C : Type} (f : A -> B -> C) (xs : list A) (ys : list B) : list C :=
  match xs, ys with
  | x :: xs', y :: ys' => f x y :: zip_with f xs' ys'
  | _, _ => []
  end.

(** Broadcasting of one axis: equal extents, or one of them is 1. *)
Definition bcast_len (m n : nat) : option nat :=
  if m =? n then Some m
  else if m =? 1 then Some n
  else if n =? 1 then Some m
  else None.

(** An axis of extent 1 is repeated up to the common extent. *)
Definition stretch {A : Type} (k : nat) (l : list A) : list A :=
  match l with
  | [x] => repeat x k
  | _ => l
  end.

Definition elementwise1 (f : fnum -> fnum -> fnum) (a b : tensor1) : res tensor1 :=
  match bcast_len (length a) (length b) with
  | Some n => Ok (zip_with f (stretch n a) (stretch n b))
  | None => Raise (InvalidArgumentError "Incompatible shapes")
  end.

Definition elementwise2 (f : fnum -> fnum -> fnum) (a b : tensor2) : res tensor2 :=
  match bcast_len (dim0 a) (dim0 b), bcast_len (dim1 a) (dim1 b) with
  | Some n, Some d =>
      Ok (T2 n d (zip_with (fun ra rb => zip_with f (stretch d ra) (stretch d rb))
                           (stretch n (rows a)) (stretch n (rows b))))
  | _, _ => Raise (InvalidArgumentError "Incompatible shapes")
  end.

Definition fsum (l : list fnum) : fnum := fold_right fadd (Fin 0) l.

(** [tf.reduce_sum(t, axis=1)] and [tf.reduce_mean(t, axis=1)]. *)
Definition reduce_sum_axis1 (t : tensor2) : tensor1 := map fsum (rows t).
Definition reduce_mean_axis1 (t : tensor2) : tensor1 :=
  map (fun r => fdiv_count (fsum r) (dim1 t)) (rows t).

(** [tf.reduce_mean(v)] of a rank-1 tensor. *)
Definition reduce_mean (v : tensor1) : fnum := fdiv_count (fsum v) (length v).

Definition scale1 (c : fnum) (v : tensor1) : tensor1 := map (fmul c) v.
Definition neg1 (v : tensor1) : tensor1 := map fneg v.

(** ** The custom loss of the selector, [INVASE.my_loss]

    [tau] is [self.tau], the only attribute the method reads. *)

Definition my_loss (tau : fnum) (y_true y_pred : tensor2) : res fnum :=
  (* dimension of the features *)
  let d := dim1 y_pred in
  (* 1. selected probability *)
  let sel_prob := slice_cols 0 (Some d) y_true in
  (* 2. predictor output *)
  let dis_prob := slice_cols d (Some (d + 2)) y_true in
  (* 3. baseline output *)
  let val_prob := slice_cols (d + 2) (Some (d + 4)) y_true in
  (* 4. ground truth *)
  let y_final := slice_cols (d + 4) None y_true in
  (* A1, A2. rewards of the actor network *)
  r1 <- elementwise2 fmul y_final (log2d (add_scalar dis_prob eps)) ;;
  let Reward1 := reduce_sum_axis1 r1 in
  r2 <- elementwise2 fmul y_final (log2d (add_scalar val_prob eps)) ;;
  let Reward2 := reduce_sum_axis1 r2 in
  Reward <- elementwise1 fsub Reward1 Reward2 ;;
  (* B. policy gradient loss *)
  a <- elementwise2 fmul sel_prob (log2d (add_scalar y_pred eps)) ;;
  b <- elementwise2 fmul (rsub_scalar 1 sel_prob)
                         (log2d (add_scalar (rsub_scalar 1 y_pred) eps)) ;;
  ab <- elementwise2 fadd a b ;;
  pg <- elementwise1 fmul Reward (reduce_sum_axis1 ab) ;;
  loss1 <- elementwise1 fsub pg (scale1 tau (reduce_mean_axis1 y_pred)) ;;
  (* C. maximise loss1 *)
  Ok (reduce_mean (neg1 loss1)).


(** The value bound to [Reward1], [Reward2] and [Reward] in [my_loss]
    (lines A1, A2 and the difference), as functions of the feature dimension
    and the composite target. *)
Definition Reward1_of (d : nat) (y_true : tensor2) : res tensor1 :=
  r1 <- elementwise2 fmul (slice_cols (d + 4) None y_true)
                          (log2d (add_scalar (slice_cols d (Some (d + 2)) y_true) eps)) ;;
  Ok (reduce_sum_axis1 r1).

Definition Reward2_of (d : nat) (y_true : tensor2) : res tensor1 :=
  r2 <- elementwise2 fmul (slice_cols (d + 4) None y_true)
                          (log2d (add_scalar (slice_cols (d + 2) (Some (d + 4)) y_true) eps)) ;;
  Ok (reduce_sum_axis1 r2).

Definition Reward_of (d : nat) (y_true : tensor2) : res tensor1 :=
  Reward1 <- Reward1_of d y_true ;;
  Reward2 <- Reward2_of d y_true ;;
  elementwise1 fsub Reward1 Reward2.

(** What [my_loss] does once [Reward] is known (part B and C): it reads
    the composite target through its selection columns only. *)
Definition policy_part (tau : fnum) (sel_prob y_pred : tensor2) (Reward : tensor1) : res fnum :=
  a <- elementwise2 fmul sel_prob (log2d (add_scalar y_pred eps)) ;;
  b <- elementwise2 fmul (rsub_scalar 1 sel_prob)
                         (log2d (add_scalar (rsub_scalar 1 y_pred) eps)) ;;
  ab <- elementwise2 fadd a b ;;
  pg <- elementwise1 fmul Reward (reduce_sum_axis1 ab) ;;
  loss1 <- elementwise1 fsub pg (scale1 tau (reduce_mean_axis1 y_pred)) ;;
  Ok (reduce_mean (neg1 loss1)).

(** The four tensors [my_loss] takes a logarithm of. *)
Definition log_arguments (y_true y_pred : tensor2) : list tensor2 :=
  let d := dim1 y_pred in
  [ add_scalar (slice_cols d (Some (d + 2)) y_true) eps;
    add_scalar (slice_cols (d + 2) (Some (d + 4)) y_true) eps;
    add_scalar y_pred eps;
    add_scalar (rsub_scalar 1 y_pred) eps ].

(** ** Index form of tensors

    A well-formed tensor is the table of its entries; the tensor operations
    act entry by entry on such tables. *)

Definition tab (n d : nat) (f : nat -> nat -> fnum) : tensor2 :=
  T2 n d (map (fun i => map (f i) (seq 0 d)) (seq 0 n)).

(** The value of the loss on tables of the shapes the selector is trained
    with, entry by entry and still in float arithmetic. *)
Definition loss_index_form (tau : fnum) (n d : nat) (T P : nat -> nat -> fnum) : fnum :=
  let log_eps v := flog (fadd v (Fin eps)) in
  let Reward1 i := fsum (map (fun c => fmul (T i (d + 4 + c)) (log_eps (T i (d + c)))) (seq 0 2)) in
  let Reward2 i := fsum (map (fun c => fmul (T i (d + 4 + c)) (log_eps (T i (d + 2 + c)))) (seq 0 2)) in
  let loglik i :=
    fsum (map (fun j => fadd (fmul (T i j) (log_eps (P i j)))
                             (fmul (fsub (Fin 1) (T i j))
                                   (log_eps (fsub (Fin 1) (P i j)))))
              (seq 0 d)) in
  let loss1 i :=
    fsub (fmul (fsub (Reward1 i) (Reward2 i)) (loglik i))
         (fmul tau (fdiv_count (fsum (map (P i) (seq 0 d))) d)) in
  fdiv_count (fsum (map (fun i => fneg (loss1 i)) (seq 0 n))) n.

(** ** The loss in the words of the specification

    Real-valued, indexed by example [i], feature [j] and class [c]. *)

Definition rsum (k : nat) (f : nat -> R) : R := fold_right Rplus 0%R (map f (seq 0 k)).

Section SpecLoss.
Variable t : R.
Variable d : nat.
Variables y_true y_pred : tensor2.

Definition spec_sel_prob (i j : nat) : R := at2 y_true i j.
Definition spec_dis_prob (i c : nat) : R := at2 y_true i (d + c).
Definition spec_val_prob (i c : nat) : R := at2 y_true i (d + 2 + c).
Definition spec_y_final (i c : nat) : R := at2 y_true i (d + 4 + c).

Definition spec_reward (i : nat) : R :=
  (rsum 2 (fun c => spec_y_final i c * ln (spec_dis_prob i c + eps))
   - rsum 2 (fun c => spec_y_final i c * ln (spec_val_prob i c + eps)))%R.

Definition spec_surrogate (i : nat) : R :=
  (spec_reward i
   * rsum d (fun j => spec_sel_prob i j * ln (at2 y_pred i j + eps)
                      + (1 - spec_sel_prob i j) * ln (1 - at2 y_pred i j + eps))
   - t * (rsum d (fun j => at2 y_pred i j) / INR d))%R.

Definition spec_loss (n : nat) : R := (- (rsum n spec_surrogate / INR n))%R.
End SpecLoss.

(** Entries that are probabilities, and entries strictly inside the guard. *)
Definition prob_entry (t : tensor2) (i j : nat) : Prop :=
  exists p, entry t i j = Fin p /\ (0 <= p <= 1)%R.

Definition guarded_entry (t : tensor2) (i j : nat) : Prop :=
  exists p, entry t i j = Fin p /\ (eps < p < 1 - eps)%R.

Definition finite_entries (t : tensor2) : Prop :=
  forall i j, i < dim0 t -> j < dim1 t -> is_finite (entry t i j).

Definition positive_entries (t : tensor2) : Prop :=
  forall i j, i < dim0 t -> j < dim1 t -> exists x, entry t i j = Fin x /\ (0 < x)%R.

(** ** The random source

    [numpy.random] is a hidden global stream.  It is made explicit as the
    draws still to come: raw integers, which [randint] reduces into the
    requested range, and uniform reals of [[0,1)], which [binomial] compares
    with the success probability. *)

Record unit_draw : Type := UnitDraw {
  draw : R;
  draw_range : (0 <= draw < 1)%R
}.

Record np_random : Type := RandomState {
  next_ints : nat -> nat;
  next_uniforms : nat -> unit_draw
}.

Definition advance {A : Type} (k : nat) (s : nat -> A) : nat -> A := fun i => s (k + i).

(** [np.random.randint(low, high, size)]: [size] integers of [[low, high)].
    An empty range is rejected with [ValueError: low >= high]; releases of
    numpy that return an empty array when [size] is 0 differ for an empty
    training set only, and nothing below is stated about one. *)
Definition randint (low high size : nat) (rs : np_random) : res (list nat * np_random) :=
  if high <=? low then Raise (ValueError "low >= high")
  else Ok (map (fun k => low + next_ints rs k mod (high - low)) (seq 0 size),
           RandomState (advance size (next_ints rs)) (next_uniforms rs)).

Fixpoint mapi_from {A B : Type} (f : nat -> A -> B) (k : nat) (l : list A) : list B :=
  match l with
  | [] => []
  | x :: l' => f k x :: mapi_from f (S k) l'
  end.

Definition mapi {A B : Type} (f : nat -> A -> B) (l : list A) : list B := mapi_from f 0 l.

Definition valid_prob (a : fnum) : bool :=
  match a with
  | Fin p => if Rle_dec 0 p then (if Rle_dec p 1 then true else false) else false
  | NonFinite => false
  end.

(** One Bernoulli trial with success probability [p], decided by a uniform
    draw of [[0,1)]. *)
Definition bernoulli (u : unit_draw) (p : fnum) : fnum :=
  if Rlt_dec (draw u) (real_of p) then Fin 1 else Fin 0.

(** [np.random.binomial(1, p, size)] for a matrix [p] and [size] its own
    shape; a probability outside [[0,1]] or a NaN is rejected. *)
Definition binomial1 (p : tensor2) (size : nat * nat) (rs : np_random)
  : res (tensor2 * np_random) :=
  if negb ((fst size =? dim0 p) && (snd size =? dim1 p))
  then Raise (ValueError "shape mismatch: objects cannot be broadcast to a single shape")
  else if negb (forallb (forallb valid_prob) (rows p))
  then Raise (ValueError "p < 0, p > 1 or p is NaN")
  else
    let d := snd size in
    Ok (T2 (fst size) d
           (mapi (fun i r => mapi (fun j pij => bernoulli (next_uniforms rs (i * d + j)) pij) r)
                 (rows p)),
        RandomState (next_ints rs) (advance (fst size * d) (next_uniforms rs))).

(** ** Sampling the features, [INVASE.Sample_M] *)
Definition Sample_M (gen_prob : tensor2) (rs : np_random) : res (tensor2 * np_random) :=
  (* Shape of the selection probability *)
  let n := dim0 gen_prob in
  let d := dim1 gen_prob in
  (* Sampling *)
  binomial1 gen_prob (n, d) rs.

(** ** numpy helpers of the training loop *)

(** [t[idx, :]] for a list of row indices. *)
Fixpoint take_rows_list (idx : list nat) (rs : list (list fnum)) : res (list (list fnum)) :=
  match idx with
  | [] => Ok []
  | k :: idx' =>
      match nth_error rs k with
      | Some r => rest <- take_rows_list idx' rs ;; Ok (r :: rest)
      | None => Raise (IndexError "index is out of bounds for axis 0")
      end
  end.

Definition take_rows (idx : list nat) (t : tensor2) : res tensor2 :=
  rs <- take_rows_list idx (rows t) ;;
  Ok (T2 (length idx) (dim1 t) rs).

(** [np.concatenate((a, b), axis=1)] and its n-ary form. *)
Definition concat2 (a b : tensor2) : res tensor2 :=
  if dim0 a =? dim0 b
  then Ok (T2 (dim0 a) (dim1 a + dim1 b) (zip_with (@app fnum) (rows a) (rows b)))
  else Raise (ValueError "all the input array dimensions except for the concatenation axis must match exactly").

Fixpoint concatenate_axis1 (ts : list tensor2) : res tensor2 :=
  match ts with
  | [] => Raise (ValueError "need at least one array to concatenate")
  | [t] => Ok t
  | t :: ts' => rest <- concatenate_axis1 ts' ;; concat2 t rest
  end.

(** ** The Keras layer [Multiply] called on arrays

    [Multiply()([a, b])] calls a layer.  [Layer.__call__] first runs
    [assert_input_compatibility], which asks [K.is_keras_tensor] of every
    input; that function raises [ValueError] on a value that is not a
    symbolic tensor of the backend, and the layer reports it as a
    [ValueError] of its own.  The values of type [tensor2] are the Numpy
    arrays the program computes with ([x_train[idx,:]], the result of
    [np.random.binomial]) and none of them is symbolic, so the element-wise
    product behind the check is not reached. *)
Definition is_keras_tensor (x : tensor2) : res bool :=
  Raise (ValueError "Unexpectedly found an instance of type numpy.ndarray. Expected a symbolic tensor instance.").

Definition not_symbolic : exn :=
  ValueError "Layer multiply was called with an input that isn't a symbolic tensor. All inputs to the layer should be tensors.".

Fixpoint assert_input_compatibility (inputs : list tensor2) : res unit :=
  match inputs with
  | [] => Ok tt
  | x :: inputs' =>
      match is_keras_tensor x with
      | Ok _ => assert_input_compatibility inputs'
      | Raise _ => Raise not_symbolic
      end
  end.

Definition Multiply (a b : tensor2) : res tensor2 :=
  checked <- assert_input_compatibility [a; b] ;;
  elementwise2 fmul a b.

(** ** Keras models

    The arithmetic inside a network is left abstract: [forward] is what
    [Model.predict] computes from the current parameters, [fit] is one
    gradient step of [Model.train_on_batch], which also advances the state of
    the optimizer.  The architecture, the compiled loss and the metrics are
    data, as [build_selector], [build_base_network] and [compile] set them. *)

Inductive layer : Type :=
| Dense (units : nat) (activation : string) (name : string) (l2 : R)
| BatchNormalization.

Record architecture : Type := Sequential {
  input_dim : nat;
  layers : list layer
}.

Fixpoint output_dim_from (dflt : nat) (ls : list layer) : nat :=
  match ls with
  | [] => dflt
  | Dense u _ _ _ :: ls' => output_dim_from u ls'
  | BatchNormalization :: ls' => output_dim_from dflt ls'
  end.

Definition output_dim (a : architecture) : nat := output_dim_from (input_dim a) (layers a).

Inductive loss_fn : Type :=
| categorical_crossentropy
| custom_loss (f : tensor2 -> tensor2 -> res fnum).

Inductive net_id : Type := Predictor | Selector | Baseline.

(** The calls made on the three networks, in program order, and the progress
    lines printed. *)
Inductive event : Type :=
| Predict (net : net_id) (x out : tensor2)
| TrainOnBatch (net : net_id) (x y : tensor2)
| Printed (epoch : nat) (d_acc v_acc : fnum) (g_loss : list fnum).

Section Networks.
Variable weights : Type.
Variable optim : Type.
Variable init_weights : architecture -> weights.
Variable Adam : R -> optim.
Variable forward : architecture -> weights -> tensor2 -> res tensor2.
Variable fit : architecture -> loss_fn -> list string -> weights -> optim ->
               tensor2 -> tensor2 -> res (weights * optim * list fnum).

Record Model : Type := mkModel {
  arch : architecture;
  params : weights;
  compiled : option (loss_fn * list string)
}.

Definition compile (m : Model) (loss : loss_fn) (metrics : list string) : Model :=
  mkModel (arch m) (params m) (Some (loss, metrics)).

(** [Model.predict]: reads the parameters, changes nothing. *)
Definition predict (m : Model) (x : tensor2) : res tensor2 :=
  forward (arch m) (params m) x.

(** [Model.predict] on a list of input arrays; the models of this program
    have a single input. *)
Definition predict_inputs (m : Model) (xs : list tensor2) : res tensor2 :=
  match xs with
  | [x] => predict m x
  | _ => Raise (ValueError "Error when checking model input: the list of Numpy arrays that you are passing to your model is not the size the model expected")
  end.

(** [Model.train_on_batch]: one step on the parameters of the model and on
    the optimizer it was compiled with. *)
Definition train_on_batch (m : Model) (o : optim) (x y : tensor2)
  : res (Model * optim * list fnum) :=
  match compiled m with
  | None => Raise (RuntimeError "You must compile a model before training/testing")
  | Some (loss, metrics) =>
      r <- fit (arch m) loss metrics (params m) o x y ;;
      let '(w', o', out) := r in
      Ok (mkModel (arch m) w' (compiled m), o', out)
  end.

(** ** The class [INVASE] *)

Record INVASE : Type := mkINVASE {
  is_logging_enabled : bool;
  batch_size : nat;
  epochs : nat;
  tau : fnum;
  input_shape : nat;
  activation : string;
  predictor : Model;
  selector : Model;
  baseline : Model
}.

(** Selector (actor). *)
Definition build_selector (activation : string) (input_shape : nat) : Model :=
  let model :=
    Sequential input_shape
      [ Dense 100 activation "s/dense1" (1 / 1000);
        Dense 100 activation "s/dense2" (1 / 1000);
        Dense input_shape "sigmoid" "s/dense3" (1 / 1000) ] in
  mkModel model (init_weights model) None.

(** Baseline and predictor. *)
Definition build_base_network (activation : string) (input_shape : nat) : Model :=
  let model :=
    Sequential input_shape
      [ Dense 200 activation "dense1" (1 / 1000);
        BatchNormalization;
        Dense 200 activation "dense2" (1 / 1000);
        BatchNormalization;
        Dense 2 "softmax" "dense3" (1 / 1000) ] in
  mkModel model (init_weights model) None.

Definition in_list (s : string) (l : list string) : bool :=
  existsb (String.eqb s) l.

(** The constructor.  It returns the object and the one [Adam] optimizer
    that the three [compile] calls share. *)
Definition __init__ (x_train : tensor2) (data_type : string) (n_epoch : nat)
           (is_logging_enabled : bool) (learning_rate : R) : INVASE * optim :=
  let batch_size := Nat.min 1000 (dim0 x_train) in
  let epochs := n_epoch in
  let tau := Fin (1 / 10) in
  let input_shape := dim1 x_train in
  let activation := if in_list data_type ["Syn1"; "Syn2"]%string then "relu"%string else "selu"%string in
  let optimizer := Adam learning_rate in
  let predictor :=
    compile (build_base_network activation input_shape) categorical_crossentropy ["acc"%string] in
  let selector :=
    compile (build_selector activation input_shape) (custom_loss (my_loss tau)) [] in
  let baseline :=
    compile (build_base_network activation input_shape) categorical_crossentropy ["acc"%string] in
  (mkINVASE is_logging_enabled batch_size epochs tau input_shape activation
            predictor selector baseline,
   optimizer).

(** ** Attribute lookup

    [self.name] finds what [__init__] stored on the instance, then the
    methods of the class; any other name raises [AttributeError]. *)

Inductive pyval : Type :=
| PBool (b : bool)
| PInt (n : nat)
| PFloat (x : fnum)
| PStr (s : string)
| PModel (m : Model)
| PMethod (name : string).

Definition class_methods : list string :=
  [ "__init__"; "my_loss"; "build_selector"; "build_base_network";
    "Sample_M"; "train"; "output"; "get_prediction" ]%string.

Definition instance_dict (self : INVASE) : list (string * pyval) :=
  [ ("is_logging_enabled"%string, PBool (is_logging_enabled self));
    ("batch_size"%string, PInt (batch_size self));
    ("epochs"%string, PInt (epochs self));
    ("tau"%string, PFloat (tau self));
    ("input_shape"%string, PInt (input_shape self));
    ("activation"%string, PStr (activation self));
    ("predictor"%string, PModel (predictor self));
    ("selector"%string, PModel (selector self));
    ("baseline"%string, PModel (baseline self)) ].

Fixpoint assoc (name : string) (l : list (string * pyval)) : option pyval :=
  match l with
  | [] => None
  | (k, v) :: l' => if String.eqb name k then Some v else assoc name l'
  end.

Definition getattr (self : INVASE) (name : string) : res pyval :=
  match assoc name (instance_dict self) with
  | Some v => Ok v
  | None =>
      if in_list name class_methods then Ok (PMethod name)
      else Raise (AttributeError name)
  end.

Definition as_model (v : pyval) : res Model :=
  match v with
  | PModel m => Ok m
  | _ => Raise (AttributeError "predict")
  end.

(** ** Program state and the monad of the methods

    The three networks are mutated in place, the optimizer is shared and
    the random stream is global: they are threaded through every method
    together with the trace of events.  An exception ends a method and
    undoes nothing: the state reached when it is raised is returned with
    it. *)

Record state : Type := mkState {
  self : INVASE;
  optimizer : optim;
  random : np_random;
  trace : list event
}.

Definition M (A : Type) : Type := state -> res A * state.

Definition ret {A : Type} (a : A) : M A := fun s => (Ok a, s).

Definition bindM {A B : Type} (c : M A) (k : A -> M B) : M B :=
  fun s => match c s with
           | (Ok a, s') => k a s'
           | (Raise e, s') => (Raise e, s')
           end.

Definition lift {A : Type} (c : res A) : M A := fun s => (c, s).

Definition get_self : M INVASE := fun s => (Ok (self s), s).

Definition emit (e : event) : M unit :=
  fun s => (Ok tt, mkState (self s) (optimizer s) (random s) (trace s ++ [e])).

(** A call on [np.random]; the arguments are checked before anything is
    drawn, so a rejected call leaves the stream where it was. *)
Definition with_random {A : Type} (c : np_random -> res (A * np_random)) : M A :=
  fun s => match c (random s) with
           | Ok (a, rs') => (Ok a, mkState (self s) (optimizer s) rs' (trace s))
           | Raise e => (Raise e, s)
           end.

Definition model_of (net : net_id) (obj : INVASE) : Model :=
  match net with
  | Predictor => predictor obj
  | Selector => selector obj
  | Baseline => baseline obj
  end.

Definition set_model (net : net_id) (m : Model) (obj : INVASE) : INVASE :=
  match net with
  | Predictor =>
      mkINVASE (is_logging_enabled obj) (batch_size obj) (epochs obj) (tau obj)
               (input_shape obj) (activation obj) m (selector obj) (baseline obj)
  | Selector =>
      mkINVASE (is_logging_enabled obj) (batch_size obj) (epochs obj) (tau obj)
               (input_shape obj) (activation obj) (predictor obj) m (baseline obj)
  | Baseline =>
      mkINVASE (is_logging_enabled obj) (batch_size obj) (epochs obj) (tau obj)
               (input_shape obj) (activation obj) (predictor obj) (selector obj) m
  end.

(** [self.<net>.predict(x)] *)
Definition do_predict (net : net_id) (x : tensor2) : M tensor2 :=
  fun s =>
    match predict (model_of net (self s)) x with
    | Ok out =>
        (Ok out, mkState (self s) (optimizer s) (random s)
                         (trace s ++ [Predict net x out]))
    | Raise e => (Raise e, s)
    end.

(** [self.<net>.train_on_batch(x, y)] *)
Definition do_train_on_batch (net : net_id) (x y : tensor2) : M (list fnum) :=
  fun s =>
    match train_on_batch (model_of net (self s)) (optimizer s) x y with
    | Ok (m', o', out) =>
        (Ok out, mkState (set_model net m' (self s)) o' (random s)
                         (trace s ++ [TrainOnBatch net x y]))
    | Raise e => (Raise e, s)
    end.

(** [l[k]] on the value returned by [train_on_batch]. *)
Definition index (l : list fnum) (k : nat) : res fnum :=
  match nth_error l k with
  | Some v => Ok v
  | None => Raise (IndexError "list index out of range")
  end.

Notation "x <~ c ;; k" := (bindM c (fun x => k))
  (at level 61, c at next level, right associativity).

(** ** One iteration of the loop of [INVASE.train] *)
Definition train_step (x_train y_train : tensor2) (epoch : nat) : M unit :=
  obj <~ get_self ;;
  (* Select a random batch of samples *)
  idx <~ with_random (randint 0 (dim0 x_train) (batch_size obj)) ;;
  x_batch <~ lift (take_rows idx x_train) ;;
  y_batch <~ lift (take_rows idx y_train) ;;
  (* Generate a batch of probabilities of feature selection *)
  sel_prob <~ do_predict Selector x_batch ;;
  (* Sampling the features and overlaying the mask on the input *)
  sel_mask <~ with_random (Sample_M sel_prob) ;;
  sel_feat <~ lift (Multiply x_batch sel_mask) ;;
  (* Prediction of the critic on the sampled features *)
  dis_prob <~ do_predict Predictor sel_feat ;;
  (* Train the predictor *)
  d_loss <~ do_train_on_batch Predictor sel_feat y_batch ;;
  (* Prediction of the baseline *)
  val_prob <~ do_predict Baseline x_batch ;;
  (* Train the baseline *)
  v_loss <~ do_train_on_batch Baseline x_batch y_batch ;;
  (* Use sel_prob, dis_prob, val_prob and the ground truth as y_true *)
  y_batch_final <~ lift (concatenate_axis1 [sel_prob; dis_prob; val_prob; y_batch]) ;;
  (* Train the selector *)
  g_loss <~ do_train_on_batch Selector x_batch y_batch_final ;;
  (* Plot the progress *)
  d_acc <~ lift (index d_loss 1) ;;
  v_acc <~ lift (index v_loss 1) ;;
  if epoch mod 100 =? 0 then emit (Printed epoch d_acc v_acc g_loss) else ret tt.

Fixpoint for_each (l : list nat) (body : nat -> M unit) : M unit :=
  match l with
  | [] => ret tt
  | e :: l' => _ <~ body e ;; for_each l' body
  end.

(** [INVASE.train]: for each epoch (actually iterations). *)
Definition train (x_train y_train : tensor2) : M unit :=
  obj <~ get_self ;;
  for_each (seq 0 (epochs obj)) (train_step x_train y_train).

(** ** Selected features, [INVASE.output] *)
Definition output (x_train : tensor2) : M tensor2 :=
  obj <~ get_self ;;
  g <~ lift (getattr obj "generator") ;;
  generator <~ lift (as_model g) ;;
  gen_prob <~ lift (predict generator x_train) ;;
  ret gen_prob.

(** ** Prediction results, [INVASE.get_prediction] *)
Definition get_prediction (x_train m_train : tensor2) : M (tensor2 * tensor2) :=
  obj <~ get_self ;;
  v <~ lift (getattr obj "valfunction") ;;
  valfunction <~ lift (as_model v) ;;
  val_prediction <~ lift (predict valfunction x_train) ;;
  dm <~ lift (getattr obj "discriminator") ;;
  discriminator <~ lift (as_model dm) ;;
  dis_prediction <~ lift (predict_inputs discriminator [x_train; m_train]) ;;
  ret (val_prediction, dis_prediction).

(** The state a fresh object starts from. *)
Definition initial_state (x_train : tensor2) (data_type : string) (n_epoch : nat)
           (is_logging_enabled : bool) (learning_rate : R) (rs : np_random) : state :=
  let '(obj, opt) := __init__ x_train data_type n_epoch is_logging_enabled learning_rate in
  mkState obj opt rs [].

(** What [__init__] fixes for good about an object built for [d] features:
    the architectures and the compiled losses.  Training changes the
    parameters only. *)
Definition configured (d : nat) (obj : INVASE) : Prop :=
  input_shape obj = d /\
  tau obj = Fin (1 / 10) /\
  arch (selector obj) = arch (build_selector (activation obj) d) /\
  arch (predictor obj) = arch (build_base_network (activation obj) d) /\
  arch (baseline obj) = arch (build_base_network (activation obj) d) /\
  compiled (selector obj) = Some (custom_loss (my_loss (tau obj)), []) /\
  compiled (predictor obj) = Some (categorical_crossentropy, ["acc"%string]) /\
  compiled (baseline obj) = Some (categorical_crossentropy, ["acc"%string]).

(** The backend contract: on inputs of the right shape a forward pass
    returns one row of [output_dim] values per example. *)
Definition forward_total : Prop :=
  forall a w x, wf2 x -> dim1 x = input_dim a ->
    exists out, forward a w x = Ok out /\ wf2 out /\
                dim0 out = dim0 x /\ dim1 out = output_dim a.

(** The selector's sigmoid yields probabilities on [x]. *)
Definition sigmoid_range (m : Model) (x : tensor2) : Prop :=
  forall out, predict m x = Ok out ->
    forall i j, i < dim0 out -> j < dim1 out -> prob_entry out i j.

Definition has_shape (t : tensor2) (n d : nat) : Prop :=
  wf2 t /\ dim0 t = n /\ dim1 t = d.

(** A training set for [d] features and two classes, and a state in which
    an iteration is started on it: the object as [__init__] configures it
    and a selector whose sigmoid output lies in [[0,1]]. *)
Definition training_data (d : nat) (x_train y_train : tensor2) : Prop :=
  wf2 x_train /\ wf2 y_train /\ 0 < dim0 x_train /\ dim0 y_train = dim0 x_train /\
  dim1 x_train = d /\ dim1 y_train = 2.

Definition step_ready (d : nat) (x_train y_train : tensor2) (s : state) : Prop :=
  configured d (self s) /\ training_data d x_train y_train /\
  forall x, sigmoid_range (selector (self s)) x.

End Networks.

(** ** A small instance of the backend

    Networks whose forward pass answers one half everywhere and whose
    gradient step counts the updates; used to run the methods on concrete
    inputs. *)
Module Toy.
Definition weights : Type := nat.
Definition optim : Type := nat.
Definition init_weights (a : architecture) : weights := 0.
Definition Adam (lr : R) : optim := 0.

Definition forward (a : architecture) (w : weights) (x : tensor2) : res tensor2 :=
  Ok (tab (dim0 x) (output_dim a) (fun _ _ => Fin (1 / 2))).

Definition fit (a : architecture) (l : loss_fn) (ms : list string) (w : weights)
           (o : optim) (x y : tensor2) : res (weights * optim * list fnum) :=
  Ok (S w, S o, repeat (Fin 0) (S (length ms))).

Definition zero_draw : unit_draw.
Proof. refine (@UnitDraw 0%R _). lra. Defined.

Definition rs0 : np_random := RandomState (fun _ => 0) (fun _ => zero_draw).

Definition x1 : tensor2 := T2 1 1 [[Fin 1]].
Definition y1 : tensor2 := T2 1 2 [[Fin 1; Fin 0]].

Definition s0 : state weights optim :=
  initial_state init_weights Adam x1 "Syn1" 1 true (1 / 10000) rs0.
End Toy.

(** The composite target in index form. *)
Definition composite (d : nat) (sel dis val y : nat -> nat -> fnum) : nat -> nat -> fnum :=
  fun i j =>
    if j <? d then sel i j
    else if j - d <? 2 then dis i (j - d)
    else if j - d - 2 <? 2 then val i (j - d - 2)
    else y i (j - d - 2 - 2).


(** ** Concrete targets *)

(** Two targets for one example and one feature whose predictor and
    baseline columns differ: both rewards of the second are those of the
    first shifted by [log (1/2)]. *)
Definition target_a : tensor2 :=
  T2 1 7 [[Fin (1 / 2); Fin (1 / 2 - eps); Fin (1 / 2); Fin (1 / 4 - eps); Fin (1 / 2);
           Fin 1; Fin 0]].

Definition target_b : tensor2 :=
  T2 1 7 [[Fin (1 / 2); Fin (1 / 4 - eps); Fin (1 / 2); Fin (1 / 8 - eps); Fin (1 / 2);
           Fin 1; Fin 0]].


(** A target for one example of no feature: predictor output, baseline
    output and label only. *)
Definition target_no_feature : tensor2 :=
  T2 1 6 [[Fin (1 / 2); Fin (1 / 2); Fin (1 / 2); Fin (1 / 2); Fin 1; Fin 0]].

(** ** Inputs on which the loss is a finite number

    A batch of [n >= 1] examples and [d >= 1] features, a composite target
    of width [d + 6] with finite entries, and probabilities in [[0,1]]
    wherever a logarithm is taken. *)
Definition loss_inputs (n d : nat) (y_true y_pred : tensor2) : Prop :=
  0 < n /\ 0 < d /\
  wf2 y_true /\ wf2 y_pred /\
  dim0 y_true = n /\ dim1 y_true = d + 6 /\ dim0 y_pred = n /\ dim1 y_pred = d /\
  finite_entries y_true /\
  (forall i j, i < n -> j < d -> prob_entry y_pred i j) /\
  (forall i j, i < n -> d <= j < d + 4 -> prob_entry y_true i j).

(** The batch average of the per-example mean selection probability. *)
Definition mean_selection (n d : nat) (y_pred : tensor2) : R :=
  (rsum n (fun i => rsum d (fun j => at2 y_pred i j) / INR d) / INR n)%R.

(** ** Progress lines in a trace *)
Definition is_progress (e : event) : bool :=
  match e with
  | Printed _ _ _ _ => true
  | _ => false
  end.

Definition is_network_call (e : event) : bool := negb (is_progress e).

(** ** The evaluation script: [performance_metric]

    The function works on numpy rows and Python floats.  Errors of the
    script are those of numpy and Python's [ZeroDivisionError]. *)

Inductive py_error : Type :=
| ZeroDivisionError (msg : string)
| Numpy (e : exn).

Inductive pyres (A : Type) : Type :=
| Return (a : A)
| Throw (e : py_error).

Arguments Return {A} a.
Arguments Throw {A} e.

Definition pbind {A B : Type} (c : pyres A) (k : A -> pyres B) : pyres B :=
  match c with
  | Return a => k a
  | Throw e => Throw e
  end.

Notation "x <-- c ;; k" := (pbind c (fun x => k))
  (at level 61, c at next level, right associativity).

Definition of_res {A : Type} (c : res A) : pyres A :=
  match c with
  | Ok a => Return a
  | Raise e => Throw (Numpy e)
  end.

(** [t[i, :]] *)
Definition row (t : tensor2) (i : nat) : res tensor1 :=
  match nth_error (rows t) i with
  | Some r => Ok r
  | None => Raise (IndexError "index is out of bounds for axis 0")
  end.

(** The product of two numpy rows, with numpy's broadcasting. *)
Definition np_multiply (a b : tensor1) : res tensor1 :=
  match bcast_len (length a) (length b) with
  | Some n => Ok (zip_with fmul (stretch n a) (stretch n b))
  | None => Raise (ValueError "operands could not be broadcast together")
  end.

(** [1 - v] *)
Definition one_minus (v : tensor1) : tensor1 := map (fun x => fsub (Fin 1) x) v.

(** [float(a) / float(b)]: Python raises on a zero divisor.  A finite
    numerator over a non-finite divisor does not occur in
    [performance_metric], where a non-finite sum in the divisor makes the
    numerator non-finite too. *)
Definition py_div (a b : fnum) : pyres fnum :=
  match b with
  | Fin y =>
      if Req_dec_T y 0 then Throw (ZeroDivisionError "float division by zero")
      else match a with
           | Fin x => Return (Fin (x / y))
           | NonFinite => Return NonFinite
           end
  | NonFinite => Return NonFinite
  end.

Definition fsqrt (a : fnum) : fnum :=
  match a with
  | Fin x => if Rlt_dec x 0 then NonFinite else Fin (sqrt x)
  | NonFinite => NonFinite
  end.

(** [np.mean(v)] and [np.std(v)] of a rank-1 array. *)
Definition np_mean (v : tensor1) : fnum := reduce_mean v.

Definition np_std (v : tensor1) : fnum :=
  let m := np_mean v in
  fsqrt (np_mean (map (fun x => fmul (fsub x m) (fsub x m)) v)).

(** The body of the loop of [performance_metric] for row [i]. *)
Definition metric_row (score g_truth : tensor2) (i : nat) : pyres (fnum * fnum) :=
  (* TPR *)
  s <-- of_res (row score i) ;;
  g <-- of_res (row g_truth i) ;;
  sg <-- of_res (np_multiply s g) ;;
  let TPR_Nom := fsum sg in
  g1 <-- of_res (row g_truth i) ;;
  let TPR_Den := fsum g1 in
  tpr <-- py_div (fmul (Fin 100) TPR_Nom) (fadd TPR_Den (Fin eps)) ;;
  (* FDR *)
  s1 <-- of_res (row score i) ;;
  g2 <-- of_res (row g_truth i) ;;
  sng <-- of_res (np_multiply s1 (one_minus g2)) ;;
  let FDR_Nom := fsum sng in
  s2 <-- of_res (row score i) ;;
  let FDR_Den := fsum s2 in
  fdr <-- py_div (fmul (Fin 100) FDR_Nom) (fadd FDR_Den (Fin eps)) ;;
  Return (tpr, fdr).

(** The loop: [Temp_TPR] and [Temp_FDR], filled row by row. *)
Fixpoint metric_rows (score g_truth : tensor2) (l : list nat)
  : pyres (list fnum * list fnum) :=
  match l with
  | [] => Return ([], [])
  | i :: l' =>
      r <-- metric_row score g_truth i ;;
      rest <-- metric_rows score g_truth l' ;;
      Return (fst r :: fst rest, snd r :: snd rest)
  end.

Definition performance_metric (score g_truth : tensor2)
  : pyres (fnum * fnum * fnum * fnum) :=
  let n := dim0 score in
  temp <-- metric_rows score g_truth (seq 0 n) ;;
  let Temp_TPR := fst temp in
  let Temp_FDR := snd temp in
  Return (np_mean Temp_TPR, np_mean Temp_FDR, np_std Temp_TPR, np_std Temp_FDR).

(** Arrays of zeros and ones. *)
Definition binary_entries (t : tensor2) : Prop :=
  forall i j, i < dim0 t -> j < dim1 t -> entry t i j = Fin 0 \/ entry t i j = Fin 1.

(** The real-valued row sums the metric is made of. *)
Definition row_sum (d : nat) (t : tensor2) (i : nat) : R := rsum d (fun j => at2 t i j).
Definition row_dot (d : nat) (s g : tensor2) (i : nat) : R :=
  rsum d (fun j => at2 s i j * at2 g i j)%R.

(** ** More concrete targets *)

(** Predictor and baseline agree. *)
Definition target_even : tensor2 :=
  T2 1 7 [[Fin (1 / 2); Fin (1 / 4); Fin (3 / 4); Fin (1 / 4); Fin (3 / 4); Fin 1; Fin 0]].

(** [target_a] with the predictor's and the baseline's columns exchanged. *)
Definition target_a_exchanged : tensor2 :=
  T2 1 7 [[Fin (1 / 2); Fin (1 / 4 - eps); Fin (1 / 2); Fin (1 / 2 - eps); Fin (1 / 2);
           Fin 1; Fin 0]].

(** One label column only. *)
Definition target_one_label : tensor2 :=
  T2 1 6 [[Fin (1 / 2); Fin (1 / 2); Fin (1 / 2); Fin (1 / 4); Fin (3 / 4); Fin 1]].

(** Numbers of network calls and of progress lines in a trace. *)
Definition count_calls (tr : list event) : nat := length (filter is_network_call tr).
Definition count_progress (tr : list event) : nat := length (filter is_progress tr).

(** A probability [binomial] rejects. *)
Definition invalid_prob (a : fnum) : Prop :=
  a = NonFinite \/ exists p, a = Fin p /\ (p < 0 \/ 1 < p)%R.

(** A backend whose forward pass has diverged: it answers NaN everywhere. *)
Module Diverged.
Definition forward (a : architecture) (w : Toy.weights) (x : tensor2) : res tensor2 :=
  Ok (tab (dim0 x) (output_dim a) (fun _ _ => NonFinite)).

Definition y_short : tensor2 := T2 0 2 [].
End Diverged.

(** The per-row rates and the statistics [performance_metric] returns, as
    real numbers. *)
Definition tpr_row (d : nat) (score g_truth : tensor2) (i : nat) : R :=
  (100 * row_dot d score g_truth i / (row_sum d g_truth i + eps))%R.

Definition fdr_row (d : nat) (score g_truth : tensor2) (i : nat) : R :=
  (100 * rsum d (fun j => at2 score i j * (1 - at2 g_truth i j))
   / (row_sum d score i + eps))%R.

Definition rmean (n : nat) (f : nat -> R) : R := (rsum n f / INR n)%R.

Definition rstd (n : nat) (f : nat -> R) : R :=
  sqrt (rmean n (fun i => (f i - rmean n f) * (f i - rmean n f)))%R.

(** Score and ground truth as [performance_metric] is used: the same shape,
    at least one row, finite entries between 0 and 1. *)
Definition metric_inputs (n d : nat) (score g_truth : tensor2) : Prop :=
  0 < n /\
  has_shape score n d /\ has_shape g_truth n d /\
  (forall i j, i < n -> j < d -> prob_entry score i j) /\
  (forall i j, i < n -> j < d -> prob_entry g_truth i j).

Definition score_a : tensor2 := T2 2 2 [[Fin 1; Fin 0]; [Fin 0; Fin 0]].
Definition truth_a : tensor2 := T2 2 2 [[Fin 1; Fin 1]; [Fin 0; Fin 0]].
Definition score_none : tensor2 := T2 2 2 [[Fin 0; Fin 0]; [Fin 0; Fin 0]].

(** ** The law of the drawn indices

    [randint] turns each raw draw of the source into one index.
    [raw_vectors m b] lists the vectors of [b] raw draws below [m];
    [count_sources n q b unifs idx] counts those, among the vectors of raw
    draws below [n * q], from which [randint 0 n b] returns the index vector
    [idx]. *)
Fixpoint raw_vectors (m b : nat) : list (list nat) :=
  match b with
  | 0 => [[]]
  | S b' => flat_map (fun r => map (cons r) (raw_vectors m b')) (seq 0 m)
  end.

Definition source_of (raw : list nat) (unifs : nat -> unit_draw) : np_random :=
  RandomState (fun k => nth k raw 0) unifs.

(** The raw vector [raw], reduced entry by entry, is the index vector
    [idx]. *)
Definition reduces_to (n : nat) (idx raw : list nat) : bool :=
  if list_eq_dec Nat.eq_dec (map (fun r => r mod n) raw) idx then true else false.

Definition draws (n b : nat) (unifs : nat -> unit_draw) (idx raw : list nat) : bool :=
  match randint 0 n b (source_of raw unifs) with
  | Ok (l, _) => if list_eq_dec Nat.eq_dec l idx then true else false
  | Raise _ => false
  end.

Definition count_sources (n q b : nat) (unifs : nat -> unit_draw) (idx : list nat) : nat :=
  length (filter (draws n b unifs idx) (raw_vectors (n * q) b)).

(** * Facts about tensors in index form *)

Lemma list_tab (A : Type) (dflt : A) (l : list A) :
  l = map (fun i => nth i l dflt) (seq 0 (length l)).
Proof.
  induction l as [|x l IH]; simpl; [reflexivity|].
  f_equal. rewrite <- seq_shift, map_map. exact IH.
Qed.

Lemma wf2_tab (t : tensor2) :
  wf2 t -> t = tab (dim0 t) (dim1 t) (entry t).
Proof.
  destruct t as [n d rs]; unfold wf2, tab, entry; simpl.
  intros [Hn Hd]. f_equal. subst n.
  rewrite (list_tab [] rs) at 1.
  apply map_ext_in. intros i Hi. apply in_seq in Hi.
  assert (Hr : length (nth i rs []) = d).
  { rewrite Forall_forall in Hd. apply Hd. apply nth_In. lia. }
  rewrite (list_tab NonFinite (nth i rs [])) at 1. rewrite Hr. reflexivity.
Qed.

Lemma tab_ext (n d : nat) (f g : nat -> nat -> fnum) :
  (forall i j, i < n -> j < d -> f i j = g i j) -> tab n d f = tab n d g.
Proof.
  intros H. unfold tab. f_equal.
  apply map_ext_in. intros i Hi. apply in_seq in Hi.
  apply map_ext_in. intros j Hj. apply in_seq in Hj.
  apply H; lia.
Qed.

Lemma wf2_of_tab (n d : nat) (f : nat -> nat -> fnum) : wf2 (tab n d f).
Proof.
  unfold wf2, tab; simpl. split.
  - now rewrite length_map, length_seq.
  - apply Forall_forall. intros r Hr. apply in_map_iff in Hr.
    destruct Hr as [i [<- _]]. now rewrite length_map, length_seq.
Qed.

Lemma entry_tab (n d : nat) (f : nat -> nat -> fnum) (i j : nat) :
  i < n -> j < d -> entry (tab n d f) i j = f i j.
Proof.
  intros Hi Hj. unfold entry, tab; simpl.
  rewrite (nth_indep _ [] (map (f 0) (seq 0 d)))
    by now rewrite length_map, length_seq.
  rewrite (map_nth (fun i => map (f i) (seq 0 d)) (seq 0 n) 0 i).
  rewrite seq_nth by assumption. simpl.
  rewrite (nth_indep _ NonFinite (f i 0)) by now rewrite length_map, length_seq.
  rewrite (map_nth (f i) (seq 0 d) 0 j).
  now rewrite seq_nth.
Qed.

Lemma seq_from (a k : nat) : seq a k = map (fun j => a + j) (seq 0 k).
Proof.
  revert a. induction k as [|k IH]; intros a; simpl; [reflexivity|].
  f_equal; [lia|].
  rewrite (IH (S a)), <- (seq_shift k 0), map_map.
  apply map_ext. intros; lia.
Qed.

Lemma firstn_seq_le (k a m : nat) : k <= m -> firstn k (seq a m) = seq a k.
Proof.
  revert a m. induction k as [|k IH]; intros a [|m] H; simpl; try reflexivity; try lia.
  f_equal. apply IH. lia.
Qed.

Lemma window_map (A : Type) (g : nat -> A) (a k w : nat) :
  a + k <= w ->
  firstn k (skipn a (map g (seq 0 w))) = map (fun j => g (a + j)) (seq 0 k).
Proof.
  intros H.
  rewrite skipn_map, firstn_map, skipn_seq, firstn_seq_le by lia.
  simpl. rewrite (seq_from a k), map_map. reflexivity.
Qed.

Lemma slice_cols_tab (a k n w : nat) (f : nat -> nat -> fnum) :
  a + k <= w ->
  slice_cols a (Some (a + k)) (tab n w f) = tab n k (fun i j => f i (a + j)).
Proof.
  intros H. unfold slice_cols, tab; simpl.
  replace (Nat.min (a + k) w - Nat.min a w) with k by lia.
  replace (Nat.min a w) with a by lia.
  f_equal. rewrite map_map. apply map_ext. intros i.
  now apply window_map.
Qed.

Lemma slice_cols_open_tab (a n w : nat) (f : nat -> nat -> fnum) :
  a <= w ->
  slice_cols a None (tab n w f) = tab n (w - a) (fun i j => f i (a + j)).
Proof.
  intros H. unfold slice_cols, tab; simpl.
  replace (Nat.min a w) with a by lia.
  f_equal. rewrite map_map. apply map_ext. intros i.
  apply window_map. lia.
Qed.

Lemma map2d_tab (g : fnum -> fnum) (n d : nat) (f : nat -> nat -> fnum) :
  map2d g (tab n d f) = tab n d (fun i j => g (f i j)).
Proof.
  unfold map2d, tab; simpl. f_equal. rewrite map_map.
  apply map_ext. intros i. now rewrite map_map.
Qed.

Lemma zip_with_map (A B C D : Type) (g : B -> C -> D) (f1 : A -> B) (f2 : A -> C)
      (l : list A) :
  zip_with g (map f1 l) (map f2 l) = map (fun x => g (f1 x) (f2 x)) l.
Proof. induction l; simpl; congruence. Qed.

Lemma stretch_same (A : Type) (k : nat) (l : list A) :
  length l = k -> stretch k l = l.
Proof.
  destruct l as [|x [|y l]]; simpl; intros H; try reflexivity.
  now subst k.
Qed.

Lemma bcast_len_same (n : nat) : bcast_len n n = Some n.
Proof. unfold bcast_len. now rewrite Nat.eqb_refl. Qed.

Lemma elementwise2_tab (g : fnum -> fnum -> fnum) (n d : nat)
      (f1 f2 : nat -> nat -> fnum) :
  elementwise2 g (tab n d f1) (tab n d f2)
  = Ok (tab n d (fun i j => g (f1 i j) (f2 i j))).
Proof.
  unfold elementwise2, tab; simpl.
  rewrite !bcast_len_same. do 2 f_equal.
  rewrite !stretch_same by now rewrite length_map, length_seq.
  rewrite zip_with_map. apply map_ext. intros i.
  rewrite !stretch_same by now rewrite length_map, length_seq.
  apply zip_with_map.
Qed.

Lemma elementwise1_map (g : fnum -> fnum -> fnum) (n : nat) (h1 h2 : nat -> fnum) :
  elementwise1 g (map h1 (seq 0 n)) (map h2 (seq 0 n))
  = Ok (map (fun i => g (h1 i) (h2 i)) (seq 0 n)).
Proof.
  unfold elementwise1.
  rewrite !length_map, length_seq, bcast_len_same.
  rewrite !stretch_same by now rewrite length_map, length_seq.
  now rewrite zip_with_map.
Qed.

Lemma reduce_sum_axis1_tab (n d : nat) (f : nat -> nat -> fnum) :
  reduce_sum_axis1 (tab n d f) = map (fun i => fsum (map (f i) (seq 0 d))) (seq 0 n).
Proof. unfold reduce_sum_axis1, tab; simpl. now rewrite map_map. Qed.

Lemma reduce_mean_axis1_tab (n d : nat) (f : nat -> nat -> fnum) :
  reduce_mean_axis1 (tab n d f)
  = map (fun i => fdiv_count (fsum (map (f i) (seq 0 d))) d) (seq 0 n).
Proof. unfold reduce_mean_axis1, tab; simpl. now rewrite map_map. Qed.


Lemma my_loss_tab (tau : fnum) (n d : nat) (T P : nat -> nat -> fnum) :
  my_loss tau (tab n (d + 6) T) (tab n d P) = Ok (loss_index_form tau n d T P).
Proof.
  unfold my_loss. cbv zeta.
  change (dim1 (tab n d P)) with d.
  pose proof (@slice_cols_tab 0 d n (d + 6) T) as Hsel.
  cbn [Nat.add] in Hsel. rewrite Hsel by lia. clear Hsel.
  rewrite (@slice_cols_tab d 2 n (d + 6) T) by lia.
  assert (Hval : slice_cols (d + 2) (Some (d + 4)) (tab n (d + 6) T)
                 = tab n 2 (fun i j => T i (d + 2 + j))).
  { replace (Some (d + 4)) with (Some (d + 2 + 2)) by (f_equal; lia).
    apply slice_cols_tab; lia. }
  rewrite Hval. clear Hval.
  rewrite (@slice_cols_open_tab (d + 4) n (d + 6) T) by lia.
  replace (d + 6 - (d + 4)) with 2 by lia.
  unfold add_scalar, rsub_scalar, log2d.
  rewrite !map2d_tab.
  rewrite reduce_mean_axis1_tab. unfold scale1. rewrite map_map.
  repeat (first [ rewrite elementwise2_tab
                | rewrite elementwise1_map
                | rewrite reduce_sum_axis1_tab ]; cbn [bind]).
  unfold reduce_mean, neg1. rewrite map_map, length_map, length_seq.
  reflexivity.
Qed.


Lemma fsum_Fin (A : Type) (h : A -> fnum) (r : A -> R) (l : list A) :
  (forall x, In x l -> h x = Fin (r x)) ->
  fsum (map h l) = Fin (fold_right Rplus 0%R (map r l)).
Proof.
  induction l as [|x l IH]; intros H; [reflexivity|].
  cbn [map fold_right]. change (fsum (h x :: map h l)) with (fadd (h x) (fsum (map h l))).
  rewrite IH by (intros; apply H; now right).
  rewrite (H x) by now left. reflexivity.
Qed.

Lemma flog_pos (x : R) : (0 < x)%R -> flog (Fin x) = Fin (ln x).
Proof. intros H. unfold flog. destruct (Rlt_dec 0 x); [reflexivity|contradiction]. Qed.

Lemma rsum_neg (k : nat) (f : nat -> R) :
  rsum k (fun i => (- f i)%R) = (- rsum k f)%R.
Proof.
  unfold rsum. induction (seq 0 k) as [|x l IH]; simpl; [lra|]. rewrite IH. lra.
Qed.

(** With every entry finite and every logarithm argument positive, the loss
    on a non-empty batch of non-empty rows is the real number of the
    specification. *)
Lemma loss_index_form_finite (t : R) (n d : nat) (T P : nat -> nat -> fnum)
      (yt yp : tensor2) :
  0 < n -> 0 < d ->
  (forall i j, i < n -> j < d + 6 -> T i j = Fin (at2 yt i j)) ->
  (forall i j, i < n -> j < d -> P i j = Fin (at2 yp i j)) ->
  (forall i c, i < n -> c < 4 -> (0 < at2 yt i (d + c) + eps)%R) ->
  (forall i j, i < n -> j < d ->
     (0 < at2 yp i j + eps)%R /\ (0 < 1 - at2 yp i j + eps)%R) ->
  loss_index_form (Fin t) n d T P = Fin (spec_loss t d yt yp n).
Proof.
  intros Hn Hd HT HP HlogT HlogP.
  unfold loss_index_form. cbv zeta.
  rewrite (@fsum_Fin nat _ (fun i => (- spec_surrogate t d yt yp i)%R)).
  - destruct n as [|n']; [lia|]. unfold fdiv_count, spec_loss.
    f_equal. fold (rsum (S n') (fun i => (- spec_surrogate t d yt yp i)%R)).
    rewrite rsum_neg. unfold Rdiv. lra.
  - intros i Hi. apply in_seq in Hi.
    rewrite (@fsum_Fin nat _
               (fun c => (spec_y_final d yt i c * ln (spec_dis_prob d yt i c + eps))%R)).
    2:{ intros c Hc. apply in_seq in Hc.
        rewrite !HT by lia. cbn [fadd].
        rewrite flog_pos by (apply HlogT; lia). reflexivity. }
    rewrite (@fsum_Fin nat _
               (fun c => (spec_y_final d yt i c * ln (spec_val_prob d yt i c + eps))%R)).
    2:{ intros c Hc. apply in_seq in Hc.
        rewrite !HT by lia. cbn [fadd].
        replace (d + 2 + c) with (d + (2 + c)) by lia.
        rewrite flog_pos by (apply HlogT; lia).
        unfold spec_val_prob. replace (d + 2 + c) with (d + (2 + c)) by lia.
        reflexivity. }
    rewrite (@fsum_Fin nat _
               (fun j => (spec_sel_prob yt i j * ln (at2 yp i j + eps)
                          + (1 - spec_sel_prob yt i j) * ln (1 - at2 yp i j + eps))%R)).
    2:{ intros j Hj. apply in_seq in Hj.
        rewrite !HT by lia. rewrite !HP by lia. cbn [fadd fsub].
        destruct (HlogP i j) as [H1 H2]; try lia.
        rewrite !flog_pos by assumption. reflexivity. }
    rewrite (@fsum_Fin nat _ (fun j => at2 yp i j)).
    2:{ intros j Hj. apply in_seq in Hj. apply HP; lia. }
    destruct d as [|d']; [lia|].
    reflexivity.
Qed.

(** Degenerate shapes: a mean over no element is a NaN. *)
Lemma loss_index_form_empty (tau : fnum) (n d : nat) (T P : nat -> nat -> fnum) :
  n = 0 \/ d = 0 -> loss_index_form tau n d T P = NonFinite.
Proof.
  intros H. unfold loss_index_form. cbv zeta.
  destruct n as [|n']; [reflexivity|].
  destruct H as [H|H]; [discriminate|]. subst d.
  cbn [seq map]. 
  assert (E : forall a, fneg (fsub a (fmul tau (fdiv_count (fsum []) 0))) = NonFinite).
  { intros a. cbn. destruct tau, a; reflexivity. }
  rewrite E. reflexivity.
Qed.

(** * The selector loss *)

Lemma my_loss_wf (tau : fnum) (n d : nat) (y_true y_pred : tensor2) :
  wf2 y_true -> wf2 y_pred ->
  dim0 y_true = n -> dim1 y_true = d + 6 -> dim0 y_pred = n -> dim1 y_pred = d ->
  my_loss tau y_true y_pred = Ok (loss_index_form tau n d (entry y_true) (entry y_pred)).
Proof.
  intros Ht Hp Hn Hw Hn' Hd.
  pose proof (wf2_tab Ht) as Et. rewrite Hn, Hw in Et.
  pose proof (wf2_tab Hp) as Ep. rewrite Hn', Hd in Ep.
  transitivity (my_loss tau (tab n (d + 6) (entry y_true)) (tab n d (entry y_pred))).
  - congruence.
  - apply my_loss_tab.
Qed.

Lemma entry_finite_at2 (t : tensor2) (i j : nat) :
  is_finite (entry t i j) -> entry t i j = Fin (at2 t i j).
Proof. intros [r Hr]. unfold at2. now rewrite Hr. Qed.

Lemma prob_entry_at2 (t : tensor2) (i j : nat) :
  prob_entry t i j -> entry t i j = Fin (at2 t i j) /\ (0 <= at2 t i j <= 1)%R.
Proof. intros [p [Hp Hr]]. unfold at2. rewrite Hp. now split. Qed.

Lemma guarded_entry_at2 (t : tensor2) (i j : nat) :
  guarded_entry t i j -> entry t i j = Fin (at2 t i j) /\ (eps < at2 t i j < 1 - eps)%R.
Proof. intros [p [Hp Hr]]. unfold at2. rewrite Hp. now split. Qed.

Lemma eps_pos : (0 < eps)%R.
Proof. unfold eps. lra. Qed.

Lemma positive_entries_tab (n d : nat) (f : nat -> nat -> fnum) :
  (forall i j, i < n -> j < d -> exists x, f i j = Fin x /\ (0 < x)%R) ->
  positive_entries (tab n d f).
Proof.
  intros H i j Hi Hj. cbn [dim0 dim1 tab] in Hi, Hj.
  rewrite entry_tab by assumption. now apply H.
Qed.

Lemma my_loss_split (tau : fnum) (y_true y_pred : tensor2) :
  my_loss tau y_true y_pred =
  (Reward <- Reward_of (dim1 y_pred) y_true ;;
   policy_part tau (slice_cols 0 (Some (dim1 y_pred)) y_true) y_pred Reward).
Proof.
  unfold my_loss, Reward_of, Reward1_of, Reward2_of, policy_part. cbv zeta.
  destruct (elementwise2 fmul (slice_cols (dim1 y_pred + 4) None y_true) _) as [r1|e];
    [|reflexivity].
  cbn [bind].
  destruct (elementwise2 fmul (slice_cols (dim1 y_pred + 4) None y_true) _) as [r2|e];
    [|reflexivity].
  cbn [bind].
  destruct (elementwise1 fsub _ _) as [Reward|e]; reflexivity.
Qed.

Tactic Notation "each_entry" integer(k) :=
  let i := fresh "i" in
  let j := fresh "j" in
  let Hi := fresh "Hi" in
  let Hj := fresh "Hj" in
  intros i j Hi Hj; cbn in Hi, Hj;
  destruct i as [|i]; [|lia];
  do k (destruct j as [|j]; [first [lia | eexists; split; [reflexivity | unfold eps; lra]] |]);
  lia.

Section LossTheorems.
Variable weights : Type.
Variable optim : Type.
Variable init_weights : architecture -> weights.
Variable Adam : R -> optim.

(** C1.  With [tau] as the constructor sets it, a composite target of width
    [d + 6] and a selector output of width [d], finite labels and selection
    columns and probabilities in [[0,1]] wherever a logarithm is taken,
    [my_loss] returns the negative mean over the [n] examples of
    [reward i * sum_j (sel i j * log (p i j + eps) + (1 - sel i j) * log (1 - p i j + eps))
     - 0.1 * mean_j (p i j)],
    the reward being the difference of the two log-likelihoods of the label.
    On an empty batch or with no feature the mean is taken over nothing and
    the value is a NaN. *)
Theorem my_loss_formula
        (x_train : tensor2) (data_type : string) (n_epoch : nat) (logging : bool) (lr : R)
        (y_true y_pred : tensor2) (n d : nat) :
  wf2 y_true -> wf2 y_pred ->
  dim0 y_true = n -> dim1 y_true = d + 6 -> dim0 y_pred = n -> dim1 y_pred = d ->
  finite_entries y_true ->
  (forall i j, i < n -> j < d -> prob_entry y_pred i j) ->
  (forall i j, i < n -> d <= j < d + 4 -> prob_entry y_true i j) ->
  my_loss (tau (fst (__init__ init_weights Adam x_train data_type n_epoch logging lr)))
          y_true y_pred
  = Ok (if (n =? 0) || (d =? 0) then NonFinite
        else Fin (spec_loss (1 / 10) d y_true y_pred n)).
Proof.
  intros Ht Hp Hn Hw Hn' Hd Hfin Hpred Htrue.
  cbn [__init__ fst tau].
  rewrite (my_loss_wf (Fin (1 / 10)) Ht Hp Hn Hw Hn' Hd). f_equal.
  destruct (Nat.eqb_spec n 0) as [En|En]; cbn [orb].
  { apply loss_index_form_empty. now left. }
  destruct (Nat.eqb_spec d 0) as [Ed|Ed].
  { apply loss_index_form_empty. now right. }
  apply loss_index_form_finite; try lia.
  - intros i j Hi Hj. apply entry_finite_at2, Hfin; lia.
  - intros i j Hi Hj. apply prob_entry_at2; auto.
  - intros i c Hi Hc.
    destruct (prob_entry_at2 (Htrue i (d + c) Hi ltac:(lia))) as [_ Hr].
    pose proof eps_pos. lra.
  - intros i j Hi Hj.
    destruct (prob_entry_at2 (Hpred i j Hi Hj)) as [_ Hr].
    pose proof eps_pos. lra.
Qed.

End LossTheorems.

Lemma my_loss_formula_witness :
  my_loss (Fin (1 / 10))
          (T2 1 7 [[Fin (1 / 2); Fin (1 / 4); Fin (3 / 4); Fin (1 / 2); Fin (1 / 2); Fin 1; Fin 0]])
          (T2 1 1 [[Fin (1 / 3)]])
  = Ok (Fin (spec_loss (1 / 10) 1
               (T2 1 7 [[Fin (1 / 2); Fin (1 / 4); Fin (3 / 4); Fin (1 / 2); Fin (1 / 2); Fin 1; Fin 0]])
               (T2 1 1 [[Fin (1 / 3)]]) 1)).
Proof.
  apply (@my_loss_formula Toy.weights Toy.optim Toy.init_weights Toy.Adam
           Toy.x1 "Syn1" 1 true (1 / 10000)
           (T2 1 7 [[Fin (1 / 2); Fin (1 / 4); Fin (3 / 4); Fin (1 / 2); Fin (1 / 2); Fin 1; Fin 0]])
           (T2 1 1 [[Fin (1 / 3)]]) 1 1).
  - split; [reflexivity | repeat constructor].
  - split; [reflexivity | repeat constructor].
  - reflexivity.
  - reflexivity.
  - reflexivity.
  - reflexivity.
  - intros i j Hi Hj. cbn in Hi, Hj.
    destruct i as [|i]; [|lia].
    do 7 (destruct j as [|j]; [eexists; reflexivity|]). lia.
  - each_entry 1.
  - intros i j Hi [Hj1 Hj2].
    destruct i as [|i]; [|lia].
    do 5 (destruct j as [|j]; [first [lia | eexists; split; [reflexivity | lra]] |]). lia.
Defined.

(** C6.  The composite target enters the loss through its selection columns
    and through the reward difference [Reward1 - Reward2] only: two targets
    with the same selection columns and the same vector of reward
    differences give the same loss for the same selector output. *)
Theorem my_loss_reward_difference (tau0 : fnum) (y_true y_true' y_pred : tensor2) :
  slice_cols 0 (Some (dim1 y_pred)) y_true = slice_cols 0 (Some (dim1 y_pred)) y_true' ->
  Reward_of (dim1 y_pred) y_true = Reward_of (dim1 y_pred) y_true' ->
  my_loss tau0 y_true y_pred = my_loss tau0 y_true' y_pred.
Proof.
  intros Hsel Hrew. rewrite !my_loss_split. now rewrite Hsel, Hrew.
Qed.

Lemma ln_quarter : ln (1 / 4) = (2 * ln (1 / 2))%R.
Proof.
  replace (1 / 4)%R with ((1 / 2) * (1 / 2))%R by lra.
  rewrite ln_mult by lra. lra.
Qed.

Lemma ln_eighth : ln (1 / 8) = (3 * ln (1 / 2))%R.
Proof.
  replace (1 / 8)%R with ((1 / 2) * (1 / 4))%R by lra.
  rewrite ln_mult by lra. rewrite ln_quarter. lra.
Qed.

Lemma flog_guarded (x y : R) : (x + eps = y)%R -> (0 < y)%R ->
  flog (fadd (Fin x) (Fin eps)) = Fin (ln y).
Proof. intros E Hy. cbn [fadd]. rewrite E. now apply flog_pos. Qed.

Lemma target_rewards_agree : Reward_of 1 target_a = Reward_of 1 target_b.
Proof.
  unfold Reward_of, Reward1_of, Reward2_of, target_a, target_b.
  cbn -[flog fadd fmul fsub eps Rdiv Rminus].
  rewrite (@flog_guarded (1 / 2 - eps) (1 / 2)) by lra.
  rewrite (@flog_guarded (1 / 4 - eps) (1 / 4)) by lra.
  rewrite (@flog_guarded (1 / 8 - eps) (1 / 8)) by lra.
  rewrite (@flog_guarded (1 / 2) (1 / 2 + eps)) by (pose proof eps_pos; lra).
  cbn [fmul fadd fsub]. rewrite ln_quarter, ln_eighth.
  do 3 f_equal. lra.
Qed.

Lemma my_loss_reward_difference_witness :
  my_loss (Fin (1 / 10)) target_a (T2 1 1 [[Fin (1 / 3)]])
  = my_loss (Fin (1 / 10)) target_b (T2 1 1 [[Fin (1 / 3)]]).
Proof.
  apply (@my_loss_reward_difference (Fin (1 / 10)) target_a target_b (T2 1 1 [[Fin (1 / 3)]])).
  - reflexivity.
  - exact target_rewards_agree.
Defined.

(** C7.  On a composite target and a selector output of a drawn batch
    (at least one example and one feature, the selection and label columns
    finite numbers), with the selector output and the predictor and baseline
    columns strictly between [1e-8] and [1 - 1e-8], every logarithm is taken
    of a positive number and the loss is a finite value. *)
Theorem my_loss_finite (t : R) (y_true y_pred : tensor2) (n d : nat) :
  0 < n -> 0 < d ->
  wf2 y_true -> wf2 y_pred ->
  dim0 y_true = n -> dim1 y_true = d + 6 -> dim0 y_pred = n -> dim1 y_pred = d ->
  finite_entries y_true ->
  (forall i j, i < n -> j < d -> guarded_entry y_pred i j) ->
  (forall i j, i < n -> d <= j < d + 4 -> guarded_entry y_true i j) ->
  Forall positive_entries (log_arguments y_true y_pred) /\
  exists v, my_loss (Fin t) y_true y_pred = Ok (Fin v).
Proof.
  intros Hn0 Hd0 Ht Hp Hn Hw Hn' Hd Hfin Hpred Htrue.
  pose proof eps_pos as Heps.
  split.
  - unfold log_arguments. cbv zeta.
    pose proof (wf2_tab Ht) as Et. rewrite Hn, Hw in Et.
    pose proof (wf2_tab Hp) as Ep. rewrite Hn', Hd in Ep.
    rewrite Hd.
    assert (Hval : slice_cols (d + 2) (Some (d + 4)) (tab n (d + 6) (entry y_true))
                   = tab n 2 (fun i j => entry y_true i (d + 2 + j))).
    { replace (Some (d + 4)) with (Some (d + 2 + 2)) by (f_equal; lia).
      apply slice_cols_tab; lia. }
    rewrite Et at 1 2. rewrite Ep at 1 2.
    rewrite (@slice_cols_tab d 2 n (d + 6) (entry y_true)) by lia.
    rewrite Hval.
    unfold add_scalar, rsub_scalar. rewrite !map2d_tab.
    repeat constructor; apply positive_entries_tab; intros i j Hi Hj.
    + destruct (guarded_entry_at2 (Htrue i (d + j) Hi ltac:(lia))) as [E Hr].
      rewrite E. cbn [fadd]. eexists; split; [reflexivity | lra].
    + destruct (guarded_entry_at2 (Htrue i (d + 2 + j) Hi ltac:(lia))) as [E Hr].
      rewrite E. cbn [fadd]. eexists; split; [reflexivity | lra].
    + destruct (guarded_entry_at2 (Hpred i j Hi Hj)) as [E Hr].
      rewrite E. cbn [fadd]. eexists; split; [reflexivity | lra].
    + destruct (guarded_entry_at2 (Hpred i j Hi Hj)) as [E Hr].
      rewrite E. cbn [fadd fsub]. eexists; split; [reflexivity | lra].
  - exists (spec_loss t d y_true y_pred n).
    rewrite (my_loss_wf (Fin t) Ht Hp Hn Hw Hn' Hd). f_equal.
    apply loss_index_form_finite; try lia.
    + intros i j Hi Hj. apply entry_finite_at2, Hfin; lia.
    + intros i j Hi Hj. apply guarded_entry_at2; auto.
    + intros i c Hi Hc.
      destruct (guarded_entry_at2 (Htrue i (d + c) Hi ltac:(lia))) as [_ Hr]. lra.
    + intros i j Hi Hj.
      destruct (guarded_entry_at2 (Hpred i j Hi Hj)) as [_ Hr]. lra.
Qed.

Lemma my_loss_finite_witness :
  Forall positive_entries (log_arguments target_a (T2 1 1 [[Fin (1 / 3)]])) /\
  exists v, my_loss (Fin (1 / 10)) target_a (T2 1 1 [[Fin (1 / 3)]]) = Ok (Fin v).
Proof.
  apply (@my_loss_finite (1 / 10) target_a (T2 1 1 [[Fin (1 / 3)]]) 1 1).
  - lia.
  - lia.
  - split; [reflexivity | repeat constructor].
  - split; [reflexivity | repeat constructor].
  - reflexivity.
  - reflexivity.
  - reflexivity.
  - reflexivity.
  - intros i j Hi Hj. cbn in Hi, Hj.
    destruct i as [|i]; [|lia].
    do 7 (destruct j as [|j]; [eexists; reflexivity|]). lia.
  - each_entry 1.
  - intros i j Hi [Hj1 Hj2].
    destruct i as [|i]; [|lia].
    do 5 (destruct j as [|j];
          [first [lia | eexists; split; [reflexivity | unfold eps; lra]] |]).
    lia.
Defined.

(** What [0 < n] and [0 < d] leave out: on a batch of no example every
    entry that exists is in range and no logarithm is taken, but the mean
    over nothing is a NaN; the same holds of examples of no feature.  [train]
    draws no such batch: [randint] rejects an empty training set. *)
Lemma my_loss_empty_batch_not_finite :
  (wf2 (T2 0 7 []) /\ wf2 (T2 0 1 []) /\
   finite_entries (T2 0 7 []) /\
   (forall i j, i < 0 -> j < 1 -> guarded_entry (T2 0 1 []) i j) /\
   (forall i j, i < 0 -> j < 1 + 6 -> guarded_entry (T2 0 7 []) i j) /\
   Forall positive_entries (log_arguments (T2 0 7 []) (T2 0 1 [])) /\
   my_loss (Fin (1 / 10)) (T2 0 7 []) (T2 0 1 []) = Ok NonFinite /\
   ~ (exists v, my_loss (Fin (1 / 10)) (T2 0 7 []) (T2 0 1 []) = Ok (Fin v))) /\
  (wf2 target_no_feature /\ wf2 (T2 1 0 [[]]) /\
   finite_entries target_no_feature /\
   (forall i j, i < 1 -> j < 0 -> guarded_entry (T2 1 0 [[]]) i j) /\
   (forall i j, i < 1 -> j < 0 + 4 -> guarded_entry target_no_feature i j) /\
   my_loss (Fin (1 / 10)) target_no_feature (T2 1 0 [[]]) = Ok NonFinite).
Proof.
  split.
  - assert (E : my_loss (Fin (1 / 10)) (T2 0 7 []) (T2 0 1 []) = Ok NonFinite) by reflexivity.
    split. { split; [reflexivity | constructor]. }
    split. { split; [reflexivity | constructor]. }
    split. { intros i j Hi. cbn in Hi. lia. }
    split. { intros i j Hi. lia. }
    split. { intros i j Hi. lia. }
    split. { unfold log_arguments. repeat constructor; intros i j Hi; cbn in Hi; lia. }
    split. { exact E. }
    intros [v Hv]. rewrite E in Hv. discriminate.
  - assert (Ht : wf2 target_no_feature) by (split; [reflexivity | repeat constructor]).
    assert (Hp : wf2 (T2 1 0 [[]])) by (split; [reflexivity | repeat constructor]).
    split; [exact Ht|]. split; [exact Hp|].
    split. { intros i j Hi Hj. cbn in Hi, Hj. destruct i as [|i]; [|lia].
             do 6 (destruct j as [|j]; [eexists; reflexivity|]). lia. }
    split. { intros i j Hi Hj. lia. }
    split. { intros i j Hi Hj. destruct i as [|i]; [|lia].
             do 4 (destruct j as [|j];
                   [eexists; split; [reflexivity | unfold eps; lra]|]). lia. }
    rewrite (@my_loss_wf (Fin (1 / 10)) 1 0 target_no_feature (T2 1 0 [[]]) Ht Hp
               eq_refl eq_refl eq_refl eq_refl).
    f_equal. apply loss_index_form_empty. now right.
Qed.

(** * The sampler *)

Lemma mapi_from_map (A B : Type) (f : nat -> A -> B) (g : nat -> A) (k n : nat) :
  mapi_from f k (map g (seq k n)) = map (fun i => f i (g i)) (seq k n).
Proof.
  revert k. induction n as [|n IH]; intros k; simpl; [reflexivity|].
  f_equal. apply IH.
Qed.

Lemma mapi_map (A B : Type) (f : nat -> A -> B) (g : nat -> A) (n : nat) :
  mapi f (map g (seq 0 n)) = map (fun i => f i (g i)) (seq 0 n).
Proof. apply mapi_from_map. Qed.

Lemma valid_prob_true (a : fnum) :
  (exists p, a = Fin p /\ (0 <= p <= 1)%R) -> valid_prob a = true.
Proof.
  intros [p [-> [H0 H1]]]. unfold valid_prob.
  destruct (Rle_dec 0 p); [|contradiction].
  destruct (Rle_dec p 1); [reflexivity|contradiction].
Qed.

Lemma forallb_valid_tab (n d : nat) (f : nat -> nat -> fnum) :
  (forall i j, i < n -> j < d -> exists p, f i j = Fin p /\ (0 <= p <= 1)%R) ->
  forallb (forallb valid_prob) (rows (tab n d f)) = true.
Proof.
  intros H. apply forallb_forall. intros r Hr.
  cbn [rows tab] in Hr. apply in_map_iff in Hr. destruct Hr as [i [<- Hi]].
  apply in_seq in Hi.
  apply forallb_forall. intros a Ha.
  apply in_map_iff in Ha. destruct Ha as [j [<- Hj]]. apply in_seq in Hj.
  apply valid_prob_true, H; lia.
Qed.

Lemma bernoulli_binary (u : unit_draw) (p : fnum) :
  bernoulli u p = Fin 0 \/ bernoulli u p = Fin 1.
Proof. unfold bernoulli. destruct (Rlt_dec _ _); auto. Qed.

Lemma bernoulli_zero (u : unit_draw) : bernoulli u (Fin 0) = Fin 0.
Proof.
  unfold bernoulli. cbn [real_of]. destruct (Rlt_dec _ _) as [H|H]; [|reflexivity].
  pose proof (draw_range u). lra.
Qed.

Lemma bernoulli_one (u : unit_draw) : bernoulli u (Fin 1) = Fin 1.
Proof.
  unfold bernoulli. cbn [real_of]. destruct (Rlt_dec _ _) as [H|H]; [reflexivity|].
  pose proof (draw_range u). lra.
Qed.

(** What [Sample_M] returns on a matrix of probabilities: entry [(i, j)] is
    the trial decided by the draw number [i * d + j]. *)
Lemma Sample_M_run (gen_prob : tensor2) (rs : np_random) :
  wf2 gen_prob ->
  (forall i j, i < dim0 gen_prob -> j < dim1 gen_prob -> prob_entry gen_prob i j) ->
  Sample_M gen_prob rs
  = Ok (tab (dim0 gen_prob) (dim1 gen_prob)
            (fun i j => bernoulli (next_uniforms rs (i * dim1 gen_prob + j))
                                  (entry gen_prob i j)),
        RandomState (next_ints rs)
                    (advance (dim0 gen_prob * dim1 gen_prob) (next_uniforms rs))).
Proof.
  intros Hwf Hp. unfold Sample_M, binomial1. cbn [fst snd].
  rewrite !Nat.eqb_refl. cbn [andb negb].
  pose proof (wf2_tab Hwf) as E.
  assert (Hvalid : forallb (forallb valid_prob) (rows gen_prob) = true).
  { rewrite E. apply forallb_valid_tab. intros i j Hi Hj. now apply Hp. }
  rewrite Hvalid. cbn [negb].
  do 2 f_equal. unfold tab. f_equal.
  rewrite E at 1. cbn [rows tab].
  rewrite mapi_map. apply map_ext. intros i.
  apply mapi_map.
Qed.

(** C8.  On a matrix of probabilities and for every state of the random
    source, [Sample_M] returns a matrix of the same shape whose entries are
    0 or 1; all zeros on an input of zeros, all ones on an input of ones. *)
Theorem Sample_M_binary (gen_prob : tensor2) (rs : np_random) :
  wf2 gen_prob ->
  (forall i j, i < dim0 gen_prob -> j < dim1 gen_prob -> prob_entry gen_prob i j) ->
  exists samples rs',
    Sample_M gen_prob rs = Ok (samples, rs') /\
    wf2 samples /\ dim0 samples = dim0 gen_prob /\ dim1 samples = dim1 gen_prob /\
    (forall i j, i < dim0 gen_prob -> j < dim1 gen_prob ->
       entry samples i j = Fin 0 \/ entry samples i j = Fin 1) /\
    ((forall i j, i < dim0 gen_prob -> j < dim1 gen_prob -> entry gen_prob i j = Fin 0) ->
     forall i j, i < dim0 gen_prob -> j < dim1 gen_prob -> entry samples i j = Fin 0) /\
    ((forall i j, i < dim0 gen_prob -> j < dim1 gen_prob -> entry gen_prob i j = Fin 1) ->
     forall i j, i < dim0 gen_prob -> j < dim1 gen_prob -> entry samples i j = Fin 1).
Proof.
  intros Hwf Hp. eexists. eexists.
  split; [apply Sample_M_run; assumption|].
  split; [apply wf2_of_tab|].
  split; [reflexivity|]. split; [reflexivity|].
  split; [|split].
  - intros i j Hi Hj. rewrite entry_tab by assumption. apply bernoulli_binary.
  - intros Hz i j Hi Hj. rewrite entry_tab by assumption.
    rewrite Hz by assumption. apply bernoulli_zero.
  - intros Ho i j Hi Hj. rewrite entry_tab by assumption.
    rewrite Ho by assumption. apply bernoulli_one.
Qed.

Lemma Sample_M_binary_witness :
  exists samples rs',
    Sample_M (T2 1 2 [[Fin 0; Fin 1]]) Toy.rs0 = Ok (samples, rs') /\
    wf2 samples /\ dim0 samples = 1 /\ dim1 samples = 2 /\
    (forall i j, i < 1 -> j < 2 -> entry samples i j = Fin 0 \/ entry samples i j = Fin 1) /\
    ((forall i j, i < 1 -> j < 2 -> entry (T2 1 2 [[Fin 0; Fin 1]]) i j = Fin 0) ->
     forall i j, i < 1 -> j < 2 -> entry samples i j = Fin 0) /\
    ((forall i j, i < 1 -> j < 2 -> entry (T2 1 2 [[Fin 0; Fin 1]]) i j = Fin 1) ->
     forall i j, i < 1 -> j < 2 -> entry samples i j = Fin 1).
Proof.
  apply (@Sample_M_binary (T2 1 2 [[Fin 0; Fin 1]]) Toy.rs0).
  - split; [reflexivity | repeat constructor].
  - each_entry 2.
Defined.

(** * The numpy helpers of the training loop *)

Lemma take_rows_list_ok (idx : list nat) (rs : list (list fnum)) :
  Forall (fun k => k < length rs) idx ->
  take_rows_list idx rs = Ok (map (fun k => nth k rs []) idx).
Proof.
  induction idx as [|k idx IH]; intros H; [reflexivity|].
  inversion H as [|? ? Hk Hrest]; subst. cbn [take_rows_list map].
  destruct (nth_error rs k) as [r|] eqn:E.
  - rewrite (IH Hrest). cbn [bind]. do 2 f_equal.
    symmetry. now apply nth_error_nth.
  - apply nth_error_None in E. lia.
Qed.

Lemma take_rows_ok (idx : list nat) (t : tensor2) :
  wf2 t -> Forall (fun k => k < dim0 t) idx ->
  exists b, take_rows idx t = Ok b /\ wf2 b /\
            dim0 b = length idx /\ dim1 b = dim1 t.
Proof.
  intros [Hn Hd] Hidx. unfold take_rows.
  rewrite take_rows_list_ok by now rewrite Hn.
  cbn [bind]. eexists. split; [reflexivity|].
  split; [|split; reflexivity].
  split; cbn [rows dim0 dim1].
  - apply length_map.
  - apply Forall_forall. intros r Hr. apply in_map_iff in Hr.
    destruct Hr as [k [<- Hk]].
    rewrite Forall_forall in Hd, Hidx. apply Hd, nth_In.
    rewrite Hn. now apply Hidx.
Qed.

Lemma randint_ok (n size : nat) (rs : np_random) :
  0 < n ->
  randint 0 n size rs
  = Ok (map (fun k => next_ints rs k mod n) (seq 0 size),
        RandomState (advance size (next_ints rs)) (next_uniforms rs)).
Proof.
  intros Hn. unfold randint.
  destruct (Nat.leb_spec n 0) as [H|H]; [lia|].
  rewrite Nat.sub_0_r. reflexivity.
Qed.

Lemma randint_range (n size : nat) (rs : np_random) :
  0 < n ->
  Forall (fun k => k < n) (map (fun k => next_ints rs k mod n) (seq 0 size)).
Proof.
  intros Hn. apply Forall_forall. intros k Hk.
  apply in_map_iff in Hk. destruct Hk as [i [<- _]].
  apply Nat.mod_upper_bound. lia.
Qed.

Lemma app_tab_row (f g : nat -> fnum) (a b : nat) :
  map f (seq 0 a) ++ map g (seq 0 b)
  = map (fun j => if j <? a then f j else g (j - a)) (seq 0 (a + b)).
Proof.
  rewrite seq_app, map_app. f_equal.
  - apply map_ext_in. intros j Hj. apply in_seq in Hj.
    destruct (Nat.ltb_spec j a); [reflexivity|lia].
  - cbn [Nat.add]. rewrite (seq_from a b), map_map.
    apply map_ext. intros j.
    destruct (Nat.ltb_spec (a + j) a); [lia|].
    f_equal. lia.
Qed.

Lemma concat2_tab (n a b : nat) (f g : nat -> nat -> fnum) :
  concat2 (tab n a f) (tab n b g)
  = Ok (tab n (a + b) (fun i j => if j <? a then f i j else g i (j - a))).
Proof.
  unfold concat2, tab. cbn [dim0 dim1 rows].
  rewrite Nat.eqb_refl. do 2 f_equal.
  rewrite zip_with_map. apply map_ext. intros i. apply app_tab_row.
Qed.

Lemma concatenate_tab (n d : nat) (sel dis val y : nat -> nat -> fnum) :
  concatenate_axis1 [tab n d sel; tab n 2 dis; tab n 2 val; tab n 2 y]
  = Ok (tab n (d + 6) (composite d sel dis val y)).
Proof.
  cbn [concatenate_axis1 bind].
  rewrite (concat2_tab n 2 2 val y). cbn [bind].
  rewrite (concat2_tab n 2 (2 + 2)). cbn [bind].
  rewrite (concat2_tab n d (2 + (2 + 2))). reflexivity.
Qed.

Lemma composite_slices (n d : nat) (sel dis val y : nat -> nat -> fnum) :
  let c := tab n (d + 6) (composite d sel dis val y) in
  slice_cols 0 (Some d) c = tab n d sel /\
  slice_cols d (Some (d + 2)) c = tab n 2 dis /\
  slice_cols (d + 2) (Some (d + 4)) c = tab n 2 val /\
  slice_cols (d + 4) None c = tab n 2 y.
Proof.
  cbv zeta. repeat split.
  - pose proof (@slice_cols_tab 0 d n (d + 6) (composite d sel dis val y)) as H.
    cbn [Nat.add] in H. rewrite H by lia.
    apply tab_ext. intros i j Hi Hj. unfold composite.
    destruct (Nat.ltb_spec j d); [reflexivity|lia].
  - rewrite (@slice_cols_tab d 2 n (d + 6)) by lia.
    apply tab_ext. intros i j Hi Hj. unfold composite.
    destruct (Nat.ltb_spec (d + j) d); [lia|].
    replace (d + j - d) with j by lia.
    destruct (Nat.ltb_spec j 2); [reflexivity|lia].
  - replace (Some (d + 4)) with (Some (d + 2 + 2)) by (f_equal; lia).
    rewrite (@slice_cols_tab (d + 2) 2 n (d + 6)) by lia.
    apply tab_ext. intros i j Hi Hj. unfold composite.
    destruct (Nat.ltb_spec (d + 2 + j) d); [lia|].
    destruct (Nat.ltb_spec (d + 2 + j - d) 2); [lia|].
    replace (d + 2 + j - d - 2) with j by lia.
    destruct (Nat.ltb_spec j 2); [reflexivity|lia].
  - rewrite (@slice_cols_open_tab (d + 4) n (d + 6)) by lia.
    replace (d + 6 - (d + 4)) with 2 by lia.
    apply tab_ext. intros i j Hi Hj. unfold composite.
    destruct (Nat.ltb_spec (d + 4 + j) d); [lia|].
    destruct (Nat.ltb_spec (d + 4 + j - d) 2); [lia|].
    destruct (Nat.ltb_spec (d + 4 + j - d - 2) 2); [lia|].
    f_equal. lia.
Qed.

Lemma wf2_as_tab (t : tensor2) (n d : nat) :
  wf2 t -> dim0 t = n -> dim1 t = d -> t = tab n d (entry t).
Proof. intros H <- <-. now apply wf2_tab. Qed.

(** * The batch draw *)

Lemma Ok_inj (A : Type) (a b : A) : Ok a = Ok b -> a = b.
Proof. now inversion 1. Qed.

Lemma take_rows_rows (idx : list nat) (t b : tensor2) :
  wf2 t -> Forall (fun k => k < dim0 t) idx -> take_rows idx t = Ok b ->
  rows b = map (fun k => nth k (rows t) []) idx.
Proof.
  intros [Hn _] Hidx E. unfold take_rows in E.
  rewrite take_rows_list_ok in E by now rewrite Hn.
  cbn [bind] in E. apply Ok_inj in E. now subst b.
Qed.

Lemma nth_map_index (rs : list (list fnum)) (idx : list nat) (i : nat) :
  i < length idx ->
  nth i (map (fun k => nth k rs []) idx) [] = nth (nth i idx 0) rs [].
Proof.
  intros Hi.
  rewrite (nth_indep _ [] (nth 0 rs [])) by now rewrite length_map.
  apply (map_nth (fun k => nth k rs []) idx 0 i).
Qed.

Lemma nth_table (l : list nat) (n : nat) :
  map (fun k => nth k l 0 mod n) (seq 0 (length l)) = map (fun r => r mod n) l.
Proof.
  transitivity (map (fun r => r mod n) (map (fun k => nth k l 0) (seq 0 (length l)))).
  - now rewrite map_map.
  - now rewrite <- (list_tab 0 l).
Qed.

(** What [randint] returns from a source whose next raw draws are [raw]. *)
Lemma randint_of_raw (n : nat) (raw : list nat) (unifs : nat -> unit_draw) :
  0 < n ->
  randint 0 n (length raw) (source_of raw unifs)
  = Ok (map (fun r => r mod n) raw,
        RandomState (advance (length raw) (fun k => nth k raw 0)) unifs).
Proof.
  intros Hn. unfold source_of. rewrite randint_ok by assumption.
  cbn [next_ints next_uniforms]. now rewrite nth_table.
Qed.

Lemma raw_vectors_length (m b : nat) (raw : list nat) :
  In raw (raw_vectors m b) -> length raw = b.
Proof.
  revert raw. induction b as [|b IH]; intros raw H; cbn [raw_vectors] in H.
  - destruct H as [<-|[]]. reflexivity.
  - apply in_flat_map in H. destruct H as (r & _ & H).
    apply in_map_iff in H. destruct H as (raw' & <- & H').
    cbn [length]. f_equal. now apply IH.
Qed.

Lemma length_flat_map_const (A B : Type) (f : A -> list B) (c : nat) (l : list A) :
  (forall a, length (f a) = c) -> length (flat_map f l) = length l * c.
Proof.
  intros H. induction l as [|a l IH]; [reflexivity|].
  cbn [flat_map length]. rewrite length_app, H, IH. cbn [Nat.mul]. lia.
Qed.

Lemma length_raw_vectors (m b : nat) : length (raw_vectors m b) = m ^ b.
Proof.
  induction b as [|b IH]; [reflexivity|].
  cbn [raw_vectors Nat.pow].
  rewrite (@length_flat_map_const _ _ _ (m ^ b)).
  - now rewrite length_seq.
  - intros r. now rewrite length_map.
Qed.

Lemma draws_reduces (n b : nat) (unifs : nat -> unit_draw) (idx raw : list nat) :
  0 < n -> length raw = b ->
  draws n b unifs idx raw = reduces_to n idx raw.
Proof.
  intros Hn <-. unfold draws. now rewrite randint_of_raw.
Qed.

Lemma reduces_to_cons (n i r : nat) (idx raw : list nat) :
  reduces_to n (i :: idx) (r :: raw) = (r mod n =? i) && reduces_to n idx raw.
Proof.
  unfold reduces_to. cbn [map].
  destruct (Nat.eqb_spec (r mod n) i) as [E|E];
    destruct (list_eq_dec Nat.eq_dec (map (fun r0 => r0 mod n) raw) idx) as [E'|E'];
    destruct (list_eq_dec Nat.eq_dec (r mod n :: map (fun r0 => r0 mod n) raw) (i :: idx))
      as [E2|E2]; try reflexivity; exfalso.
  - apply E2. now rewrite E, E'.
  - inversion E2. contradiction.
  - inversion E2. contradiction.
  - inversion E2. contradiction.
Qed.

Lemma reduces_to_nil_cons (n i : nat) (idx : list nat) :
  reduces_to n (i :: idx) [] = false.
Proof.
  unfold reduces_to. cbn [map].
  destruct (list_eq_dec Nat.eq_dec [] (i :: idx)); [discriminate | reflexivity].
Qed.

Lemma count_filter_map (A B : Type) (f : B -> bool) (g : A -> B) (l : list A) :
  length (filter f (map g l)) = length (filter (fun a => f (g a)) l).
Proof.
  induction l as [|a l IH]; [reflexivity|].
  cbn [map filter]. destruct (f (g a)); cbn [length]; now rewrite IH.
Qed.

Lemma count_under (n i : nat) (idx : list nat) (L : list nat) (V : list (list nat)) :
  length (filter (reduces_to n (i :: idx)) (flat_map (fun r => map (cons r) V) L))
  = length (filter (fun r => r mod n =? i) L) * length (filter (reduces_to n idx) V).
Proof.
  induction L as [|r L IH]; [reflexivity|].
  cbn [flat_map filter]. rewrite filter_app, length_app, IH, count_filter_map.
  rewrite (filter_ext (fun a => reduces_to n (i :: idx) (r :: a))
                      (fun a => (r mod n =? i) && reduces_to n idx a))
    by (intros a; apply reduces_to_cons).
  destruct (r mod n =? i); cbn [andb length Nat.mul].
  - reflexivity.
  - assert (E : forall l : list (list nat), filter (fun _ => false) l = [])
      by (induction l; [reflexivity | assumption]).
    now rewrite E.
Qed.

Lemma count_one (n i : nat) :
  length (filter (fun k => k =? i) (seq 0 n)) = if i <? n then 1 else 0.
Proof.
  induction n as [|n IH]; [reflexivity|].
  rewrite seq_S, filter_app, length_app, IH. cbn [Nat.add filter].
  destruct (Nat.eqb_spec n i) as [E|E]; cbn [length];
    destruct (Nat.ltb_spec i n); destruct (Nat.ltb_spec i (S n)); lia.
Qed.

(** Among [n * q] consecutive raw values from 0, exactly [q] reduce to a
    given index. *)
Lemma count_residue (n q i : nat) :
  i < n -> length (filter (fun r => r mod n =? i) (seq 0 (n * q))) = q.
Proof.
  intros Hi. induction q as [|q IH].
  - now rewrite Nat.mul_0_r.
  - rewrite Nat.mul_succ_r, seq_app, filter_app, length_app, IH.
    cbn [Nat.add]. rewrite (seq_from (n * q) n), count_filter_map.
    rewrite (filter_ext_in (fun a => (n * q + a) mod n =? i) (fun a => a =? i)).
    + rewrite count_one. destruct (Nat.ltb_spec i n); lia.
    + intros a Ha. apply in_seq in Ha.
      rewrite (Nat.mul_comm n q), (Nat.add_comm (q * n) a), Nat.Div0.mod_add.
      rewrite Nat.mod_small by lia. reflexivity.
Qed.

Lemma count_reduces (n q : nat) (idx : list nat) :
  Forall (fun k => k < n) idx ->
  length (filter (reduces_to n idx) (raw_vectors (n * q) (length idx))) = q ^ length idx.
Proof.
  induction idx as [|i idx IH]; intros H; [reflexivity|].
  apply Forall_cons_iff in H. destruct H as [Hi H].
  cbn [length raw_vectors Nat.pow].
  rewrite count_under, count_residue, IH by assumption. reflexivity.
Qed.

(** The index vectors are equally likely and their entries independent when
    the raw draws are: each vector of [b] indices below [n] comes from
    exactly [q ^ b] of the [(n * q) ^ b] vectors of raw draws below
    [n * q]. *)
Lemma count_sources_uniform (n q b : nat) (unifs : nat -> unit_draw) (idx : list nat) :
  0 < n -> length idx = b -> Forall (fun k => k < n) idx ->
  count_sources n q b unifs idx = q ^ b.
Proof.
  intros Hn <- H. unfold count_sources.
  rewrite (filter_ext_in (draws n (length idx) unifs idx) (reduces_to n idx)).
  - now apply count_reduces.
  - intros raw Hraw. apply draws_reduces; [assumption|].
    now apply raw_vectors_length in Hraw.
Qed.

Lemma concatenate_wf (n d : nat) (sel dis val y : tensor2) :
  has_shape sel n d -> has_shape dis n 2 -> has_shape val n 2 -> has_shape y n 2 ->
  concatenate_axis1 [sel; dis; val; y]
  = Ok (tab n (d + 6) (composite d (entry sel) (entry dis) (entry val) (entry y))).
Proof.
  intros (Hs & Hs0 & Hs1) (Hd & Hd0 & Hd1) (Hv & Hv0 & Hv1) (Hy & Hy0 & Hy1).
  transitivity (concatenate_axis1 [tab n d (entry sel); tab n 2 (entry dis);
                                   tab n 2 (entry val); tab n 2 (entry y)]).
  - now rewrite <- (wf2_as_tab Hs Hs0 Hs1), <- (wf2_as_tab Hd Hd0 Hd1),
      <- (wf2_as_tab Hv Hv0 Hv1), <- (wf2_as_tab Hy Hy0 Hy1).
  - apply concatenate_tab.
Qed.

(** The layer call of line 158 on two arrays. *)
Lemma Multiply_arrays (a b : tensor2) : Multiply a b = Raise not_symbolic.
Proof. reflexivity. Qed.

Lemma has_shape_tab (n d : nat) (f : nat -> nat -> fnum) : has_shape (tab n d f) n d.
Proof. split; [apply wf2_of_tab | split; reflexivity]. Qed.

(** * One iteration of the training loop *)

Section TrainingFacts.
Variable weights : Type.
Variable optim : Type.
Variable init_weights : architecture -> weights.
Variable Adam : R -> optim.
Variable forward : architecture -> weights -> tensor2 -> res tensor2.
Variable fit : architecture -> loss_fn -> list string -> weights -> optim ->
               tensor2 -> tensor2 -> res (weights * optim * list fnum).

Lemma configured_dims (d : nat) (obj : INVASE weights) :
  configured init_weights d obj ->
  input_dim (arch (selector obj)) = d /\ output_dim (arch (selector obj)) = d /\
  input_dim (arch (predictor obj)) = d /\ output_dim (arch (predictor obj)) = 2 /\
  input_dim (arch (baseline obj)) = d /\ output_dim (arch (baseline obj)) = 2.
Proof.
  intros (_ & _ & Hs & Hp & Hb & _).
  rewrite Hs, Hp, Hb. repeat split; reflexivity.
Qed.

Lemma init_configured (x_train : tensor2) (data_type : string) (n_epoch : nat)
      (logging : bool) (lr : R) :
  configured init_weights (dim1 x_train)
             (fst (__init__ init_weights Adam x_train data_type n_epoch logging lr)).
Proof. repeat split; reflexivity. Qed.

Hypothesis Hforward : forward_total forward.

Lemma predict_shape (m : Model weights) (x : tensor2) (n d : nat) :
  has_shape x n d -> input_dim (arch m) = d ->
  exists out, predict forward m x = Ok out /\ has_shape out n (output_dim (arch m)).
Proof.
  intros (Hx & Hx0 & Hx1) Hin. unfold predict.
  destruct (Hforward (arch m) (params m) Hx) as (out & E & Hwf & H0 & H1); [congruence|].
  exists out. split; [exact E|]. split; [exact Hwf|]. split; congruence.
Qed.

(** One iteration, from a state in which it is started on a training set of
    the right shapes: the batch is drawn, the selector is queried on it, the
    mask is sampled, and the layer call of line 158 raises.  Nothing after
    that line is run: the state that comes with the exception has the random
    source after the two draws and one more event in the trace, the
    selector's query. *)
Lemma train_step_stops (d : nat) (x_train y_train : tensor2) (epoch : nat)
      (s : state weights optim) :
  step_ready init_weights forward d x_train y_train s ->
  exists x_batch y_batch sel_prob sel_mask rs2,
    take_rows (map (fun k => next_ints (random s) k mod dim0 x_train)
                   (seq 0 (batch_size (self s)))) x_train = Ok x_batch /\
    take_rows (map (fun k => next_ints (random s) k mod dim0 x_train)
                   (seq 0 (batch_size (self s)))) y_train = Ok y_batch /\
    has_shape x_batch (batch_size (self s)) d /\
    predict forward (selector (self s)) x_batch = Ok sel_prob /\
    has_shape sel_prob (batch_size (self s)) d /\
    Sample_M sel_prob
             (RandomState (advance (batch_size (self s)) (next_ints (random s)))
                          (next_uniforms (random s)))
    = Ok (sel_mask, rs2) /\
    has_shape sel_mask (batch_size (self s)) d /\
    next_ints rs2 = advance (batch_size (self s)) (next_ints (random s)) /\
    train_step forward fit x_train y_train epoch s
    = (Raise not_symbolic,
       mkState (self s) (optimizer s) rs2
               (trace s ++ [Predict Selector x_batch sel_prob])).
Proof.
  intros (Hc & (Hx & Hy & HN & Hny & Hdx & Hdy) & Hsig).
  destruct (configured_dims Hc) as (Hsi & Hso & _).
  set (B := batch_size (self s)).
  set (idx := map (fun k => next_ints (random s) k mod dim0 x_train) (seq 0 B)).
  assert (Hidx : Forall (fun k => k < dim0 x_train) idx) by now apply randint_range.
  assert (Hlen : length idx = B) by (unfold idx; now rewrite length_map, length_seq).
  destruct (take_rows_ok Hx Hidx) as (x_batch & Ex & Hxw & Hx0 & Hx1).
  assert (Hidy : Forall (fun k => k < dim0 y_train) idx) by now rewrite Hny.
  destruct (take_rows_ok Hy Hidy) as (y_batch & Ey & Hyw & Hy0 & Hy1).
  assert (Sx : has_shape x_batch B d) by (split; [exact Hxw | split; congruence]).
  destruct (predict_shape (selector (self s)) Sx Hsi) as (sel_prob & Esel & Ssel).
  rewrite Hso in Ssel.
  pose proof Ssel as (Hselw & Hsel0 & Hsel1).
  set (rs1 := RandomState (advance B (next_ints (random s))) (next_uniforms (random s))).
  assert (Emask := @Sample_M_run sel_prob rs1 Hselw (Hsig x_batch sel_prob Esel)).
  rewrite Hsel0, Hsel1 in Emask.
  match type of Emask with _ = Ok (?m, ?r) => set (sel_mask := m) in *; set (rs2 := r) in * end.
  exists x_batch, y_batch, sel_prob, sel_mask, rs2.
  split; [exact Ex|]. split; [exact Ey|]. split; [exact Sx|].
  split; [exact Esel|]. split; [exact Ssel|]. split; [exact Emask|].
  split; [apply has_shape_tab|]. split; [reflexivity|].
  unfold train_step, bindM, get_self, with_random, lift, do_predict.
  rewrite (randint_ok (batch_size (self s)) (random s) HN).
  fold B. fold idx. fold rs1.
  cbv beta iota. cbn [self optimizer random trace model_of].
  rewrite Ex, Ey. cbv beta iota. cbn [self optimizer random trace model_of].
  rewrite Esel. cbv beta iota. cbn [self optimizer random trace model_of].
  rewrite Emask. cbv beta iota. cbn [self optimizer random trace model_of].
  rewrite Multiply_arrays. reflexivity.
Qed.

(** The loop stops with its first iteration when that one raises. *)
Lemma train_first_iteration (x_train y_train : tensor2) (s s' : state weights optim)
      (e : exn) :
  0 < epochs (self s) ->
  train_step forward fit x_train y_train 0 s = (Raise e, s') ->
  train forward fit x_train y_train s = (Raise e, s').
Proof.
  intros HE Hstep. unfold train, bindM at 1, get_self.
  destruct (epochs (self s)) as [|E]; [lia|].
  cbn [seq for_each]. unfold bindM at 1. now rewrite Hstep.
Qed.

Lemma train_no_iteration (x_train y_train : tensor2) (s : state weights optim) :
  epochs (self s) = 0 ->
  train forward fit x_train y_train s = (Ok tt, s).
Proof.
  intros HE. unfold train, bindM at 1, get_self. rewrite HE. reflexivity.
Qed.

(** C4, on the code.  No iteration of [train] assembles the composite
    target.  From a state in which an iteration is started, on a training
    set of the right shapes, the iteration queries the selector on the batch
    and then raises [ValueError] at the layer call of line 158
    ([Multiply()] on two arrays): the concatenation of line 176 and the
    selector's [train_on_batch] of line 179 are not reached, and the only
    event the iteration adds to the trace is the selector's query. *)
Theorem composite_target_never_assembled (d : nat) (x_train y_train : tensor2)
        (epoch : nat) (s : state weights optim) :
  step_ready init_weights forward d x_train y_train s ->
  exists x_batch sel_prob s',
    train_step forward fit x_train y_train epoch s = (Raise not_symbolic, s') /\
    trace s' = trace s ++ [Predict Selector x_batch sel_prob] /\
    (forall x y, ~ In (TrainOnBatch Selector x y) [Predict Selector x_batch sel_prob]) /\
    self s' = self s /\ optimizer s' = optimizer s.
Proof.
  intros Hready.
  destruct (train_step_stops epoch Hready)
    as (x_batch & y_batch & sel_prob & sel_mask & rs2 & _ & _ & _ & _ & _ & _ & _ & _ & Hrun).
  exists x_batch, sel_prob. eexists. split; [exact Hrun|].
  split; [reflexivity|]. split; [|split; reflexivity].
  intros x y [H|[]]. discriminate.
Qed.

(** C5, on the code.  In no iteration is the predictor or the baseline
    queried or updated, and the selector is never updated: the iteration
    raises [ValueError] at line 158, before the first call on the predictor
    (line 161).  The three networks and the optimizer of the state that
    comes with the exception are those the iteration started with, whatever
    a gradient step would do, and every event the iteration has added is a
    query of the selector. *)
Theorem critics_never_queried (d : nat) (x_train y_train : tensor2)
        (epoch : nat) (s : state weights optim) :
  step_ready init_weights forward d x_train y_train s ->
  exists s' added,
    train_step forward fit x_train y_train epoch s = (Raise not_symbolic, s') /\
    predictor (self s') = predictor (self s) /\
    baseline (self s') = baseline (self s) /\
    selector (self s') = selector (self s) /\
    optimizer s' = optimizer s /\
    trace s' = trace s ++ added /\
    Forall (fun e => exists x out, e = Predict Selector x out) added.
Proof.
  intros Hready.
  destruct (train_step_stops epoch Hready)
    as (x_batch & y_batch & sel_prob & sel_mask & rs2 & _ & _ & _ & _ & _ & _ & _ & _ & Hrun).
  eexists. exists [Predict Selector x_batch sel_prob].
  split; [exact Hrun|]. cbn [self optimizer trace].
  repeat (split; [reflexivity|]).
  constructor; [|constructor]. now exists x_batch, sel_prob.
Qed.

(** C10, on the code.  The selector is queried on the batch as drawn,
    [x_train[idx, :]], and a mask is sampled from its output; but the
    product of the batch and the mask is never formed: the layer call of
    line 158 raises [ValueError] on the two arrays.  The mask is therefore
    applied to no input of the predictor, the selector is not updated, and
    the sampled mask has no effect beyond the draws it used up. *)
Theorem sampled_mask_never_applied (d : nat) (x_train y_train : tensor2)
        (epoch : nat) (s : state weights optim) :
  step_ready init_weights forward d x_train y_train s ->
  exists x_batch sel_prob sel_mask s',
    take_rows (map (fun k => next_ints (random s) k mod dim0 x_train)
                   (seq 0 (batch_size (self s)))) x_train = Ok x_batch /\
    predict forward (selector (self s)) x_batch = Ok sel_prob /\
    Sample_M sel_prob
             (RandomState (advance (batch_size (self s)) (next_ints (random s)))
                          (next_uniforms (random s)))
    = Ok (sel_mask, random s') /\
    has_shape sel_mask (batch_size (self s)) d /\
    Multiply x_batch sel_mask = Raise not_symbolic /\
    train_step forward fit x_train y_train epoch s = (Raise not_symbolic, s') /\
    trace s' = trace s ++ [Predict Selector x_batch sel_prob] /\
    selector (self s') = selector (self s).
Proof.
  intros Hready.
  destruct (train_step_stops epoch Hready)
    as (x_batch & y_batch & sel_prob & sel_mask & rs2
        & Ex & _ & _ & Esel & _ & Emask & Smask & _ & Hrun).
  exists x_batch, sel_prob, sel_mask.
  exists (mkState (self s) (optimizer s) rs2
                  (trace s ++ [Predict Selector x_batch sel_prob])).
  split; [exact Ex|]. split; [exact Esel|].
  split; [exact Emask|]. split; [exact Smask|].
  split; [apply Multiply_arrays|]. split; [exact Hrun|].
  split; reflexivity.
Qed.



(** The attributes the scoring methods would need are there under the names
    [__init__] gave them. *)
Lemma networks_are_stored (obj : INVASE weights) :
  getattr obj "selector" = Ok (PModel (selector obj)) /\
  getattr obj "baseline" = Ok (PModel (baseline obj)) /\
  getattr obj "predictor" = Ok (PModel (predictor obj)).
Proof. repeat split. Qed.

(** [predict] on the pair of a batch and a mask is rejected by a network
    built by [build_base_network], which has one input. *)
Lemma predictor_rejects_two_inputs (m : Model weights) (x_train m_train : tensor2) :
  exists msg, predict_inputs forward m [x_train; m_train] = Raise (ValueError msg).
Proof. eexists. reflexivity. Qed.

(** C2, on the code.  [output] reads [self.generator], an attribute that no
    method sets (the selector is stored as [self.selector]): whatever the
    batch and the state, the call raises [AttributeError] and returns no
    selection probability; the state is left as it was. *)
Theorem output_raises_attribute_error (x_train : tensor2) (s : state weights optim) :
  output forward x_train s = (Raise (AttributeError "generator"), s).
Proof. reflexivity. Qed.

(** C3, on the code.  [get_prediction] reads [self.valfunction] (and then
    [self.discriminator]), attributes that no method sets (the networks are
    stored as [self.baseline] and [self.predictor]): whatever the batch, the
    mask and the state, the call raises [AttributeError] and returns no
    prediction; the state is left as it was. *)
Theorem get_prediction_raises_attribute_error (x_train m_train : tensor2)
        (s : state weights optim) :
  get_prediction forward x_train m_train s = (Raise (AttributeError "valfunction"), s).
Proof. reflexivity. Qed.

End TrainingFacts.

(** * The iteration on the small backend *)

Lemma toy_forward_total : forward_total Toy.forward.
Proof.
  intros a w x Hx Hd. eexists. split; [reflexivity|].
  split; [apply wf2_of_tab | split; reflexivity].
Qed.

Lemma toy_sigmoid_range (m : Model Toy.weights) (x : tensor2) :
  sigmoid_range Toy.forward m x.
Proof.
  intros out E i j Hi Hj. unfold predict, Toy.forward in E.
  apply Ok_inj in E. subst out. cbn [dim0 dim1 tab] in Hi, Hj.
  exists (1 / 2)%R. split; [now apply entry_tab | lra].
Qed.

Lemma toy_training_data : training_data 1 Toy.x1 Toy.y1.
Proof.
  unfold training_data, Toy.x1, Toy.y1. cbn.
  repeat split; try reflexivity; try lia; repeat constructor.
Qed.

Lemma toy_ready : step_ready Toy.init_weights Toy.forward 1 Toy.x1 Toy.y1 Toy.s0.
Proof.
  split; [|split].
  - apply (init_configured Toy.init_weights Toy.Adam Toy.x1 "Syn1" 1 true (1 / 10000)).
  - exact toy_training_data.
  - intros x. apply toy_sigmoid_range.
Qed.

Lemma composite_target_never_assembled_witness :
  exists x_batch sel_prob s',
    train_step Toy.forward Toy.fit Toy.x1 Toy.y1 0 Toy.s0 = (Raise not_symbolic, s') /\
    trace s' = trace Toy.s0 ++ [Predict Selector x_batch sel_prob] /\
    self s' = self Toy.s0.
Proof.
  destruct (@composite_target_never_assembled Toy.weights Toy.optim Toy.init_weights
              Toy.forward Toy.fit toy_forward_total 1 Toy.x1 Toy.y1 0 Toy.s0 toy_ready)
    as (x_batch & sel_prob & s' & Hrun & Htrace & _ & Hself & _).
  exists x_batch, sel_prob, s'. split; [exact Hrun|]. split; assumption.
Defined.

Lemma critics_never_queried_witness :
  exists s',
    train_step Toy.forward Toy.fit Toy.x1 Toy.y1 0 Toy.s0 = (Raise not_symbolic, s') /\
    predictor (self s') = predictor (self Toy.s0) /\
    baseline (self s') = baseline (self Toy.s0).
Proof.
  destruct (@critics_never_queried Toy.weights Toy.optim Toy.init_weights
              Toy.forward Toy.fit toy_forward_total 1 Toy.x1 Toy.y1 0 Toy.s0 toy_ready)
    as (s' & added & Hrun & Hp & Hb & _).
  exists s'. split; [exact Hrun|]. split; assumption.
Defined.

Lemma sampled_mask_never_applied_witness :
  exists x_batch sel_prob sel_mask s',
    predict Toy.forward (selector (self Toy.s0)) x_batch = Ok sel_prob /\
    Multiply x_batch sel_mask = Raise not_symbolic /\
    train_step Toy.forward Toy.fit Toy.x1 Toy.y1 0 Toy.s0 = (Raise not_symbolic, s').
Proof.
  destruct (@sampled_mask_never_applied Toy.weights Toy.optim Toy.init_weights
              Toy.forward Toy.fit toy_forward_total 1 Toy.x1 Toy.y1 0 Toy.s0 toy_ready)
    as (x_batch & sel_prob & sel_mask & s' & _ & Hsel & _ & _ & Hmul & Hrun & _).
  exists x_batch, sel_prob, sel_mask, s'. split; [exact Hsel|]. split; assumption.
Defined.


Lemma toy_configured : configured Toy.init_weights 1 (self Toy.s0).
Proof. apply (init_configured Toy.init_weights Toy.Adam Toy.x1 "Syn1" 1 true (1 / 10000)). Qed.


(** * More on the selector loss *)

Lemma rsum_ext (k : nat) (f g : nat -> R) :
  (forall i, i < k -> f i = g i) -> rsum k f = rsum k g.
Proof.
  intros H. unfold rsum. f_equal. apply map_ext_in.
  intros i Hi. apply in_seq in Hi. apply H. lia.
Qed.

Lemma rsum_lin (k : nat) (t : R) (a b : nat -> R) :
  rsum k (fun i => a i - t * b i)%R = (rsum k a - t * rsum k b)%R.
Proof.
  unfold rsum. induction (seq 0 k) as [|x l IH]; simpl; [lra|]. rewrite IH. lra.
Qed.

Lemma rsum_zero (k : nat) : rsum k (fun _ => 0%R) = 0%R.
Proof. unfold rsum. induction (seq 0 k) as [|x l IH]; simpl; [reflexivity|]. rewrite IH. lra. Qed.

Lemma rsum_nonneg (k : nat) (f : nat -> R) :
  (forall i, i < k -> (0 <= f i)%R) -> (0 <= rsum k f)%R.
Proof.
  intros H. unfold rsum.
  assert (G : forall l, (forall i, In i l -> (0 <= f i)%R) ->
                        (0 <= fold_right Rplus 0 (map f l))%R).
  { induction l as [|x l IH]; intros Hl; simpl; [lra|].
    pose proof (Hl x (or_introl eq_refl)).
    assert (0 <= fold_right Rplus 0 (map f l))%R by (apply IH; intros; apply Hl; now right).
    lra. }
  apply G. intros i Hi. apply in_seq in Hi. apply H. lia.
Qed.

Lemma rsum_le (k : nat) (f g : nat -> R) :
  (forall i, i < k -> (f i <= g i)%R) -> (rsum k f <= rsum k g)%R.
Proof.
  intros H.
  assert (E : rsum k g = (rsum k f + rsum k (fun i => g i - f i))%R).
  { unfold rsum. induction (seq 0 k) as [|x l IH]; simpl; [lra|]. rewrite IH. lra. }
  rewrite E.
  assert (0 <= rsum k (fun i => g i - f i))%R.
  { apply rsum_nonneg. intros i Hi. specialize (H i Hi). lra. }
  lra.
Qed.

Lemma my_loss_value (t : R) (n d : nat) (y_true y_pred : tensor2) :
  loss_inputs n d y_true y_pred ->
  my_loss (Fin t) y_true y_pred = Ok (Fin (spec_loss t d y_true y_pred n)).
Proof.
  intros (Hn & Hd & Ht & Hp & Hn0 & Hw & Hn' & Hd' & Hfin & Hpred & Htrue).
  rewrite (my_loss_wf (Fin t) Ht Hp Hn0 Hw Hn' Hd'). f_equal.
  apply loss_index_form_finite; try lia.
  - intros i j Hi Hj. apply entry_finite_at2, Hfin; lia.
  - intros i j Hi Hj. apply prob_entry_at2; auto.
  - intros i c Hi Hc.
    destruct (prob_entry_at2 (Htrue i (d + c) Hi ltac:(lia))) as [_ Hr].
    pose proof eps_pos. lra.
  - intros i j Hi Hj.
    destruct (prob_entry_at2 (Hpred i j Hi Hj)) as [_ Hr].
    pose proof eps_pos. lra.
Qed.

Lemma spec_loss_tau (t : R) (n d : nat) (y_true y_pred : tensor2) :
  spec_loss t d y_true y_pred n
  = (spec_loss 0 d y_true y_pred n + t * mean_selection n d y_pred)%R.
Proof.
  unfold spec_loss, mean_selection, spec_surrogate.
  rewrite !rsum_lin. unfold Rdiv. lra.
Qed.

Lemma mean_selection_nonneg (n d : nat) (y_pred : tensor2) :
  (forall i j, i < n -> j < d -> prob_entry y_pred i j) ->
  (0 <= mean_selection n d y_pred)%R.
Proof.
  intros H. unfold mean_selection.
  assert (Hd : (0 <= / INR d)%R).
  { destruct d; [cbn; rewrite Rinv_0; lra|].
    left. apply Rinv_0_lt_compat, lt_0_INR. lia. }
  assert (Hn : (0 <= / INR n)%R).
  { destruct n; [cbn; rewrite Rinv_0; lra|].
    left. apply Rinv_0_lt_compat, lt_0_INR. lia. }
  unfold Rdiv. apply Rmult_le_pos; [|exact Hn].
  apply rsum_nonneg. intros i Hi. apply Rmult_le_pos; [|exact Hd].
  apply rsum_nonneg. intros j Hj.
  destruct (prob_entry_at2 (H i j Hi Hj)) as [_ Hr]. lra.
Qed.

(** X1.  The loss is affine in [tau]: between two values of [tau] it changes
    by their difference times the batch average of the mean selection
    probability, which is not negative; so a larger [tau] never gives a
    smaller loss. *)
Theorem my_loss_affine_in_tau (t1 t2 : R) (n d : nat) (y_true y_pred : tensor2) :
  loss_inputs n d y_true y_pred ->
  exists v1 v2,
    my_loss (Fin t1) y_true y_pred = Ok (Fin v1) /\
    my_loss (Fin t2) y_true y_pred = Ok (Fin v2) /\
    (v2 - v1 = (t2 - t1) * mean_selection n d y_pred)%R /\
    (0 <= mean_selection n d y_pred)%R /\
    ((t1 <= t2)%R -> (v1 <= v2)%R).
Proof.
  intros H.
  exists (spec_loss t1 d y_true y_pred n), (spec_loss t2 d y_true y_pred n).
  split; [now apply my_loss_value|]. split; [now apply my_loss_value|].
  assert (Hm : (0 <= mean_selection n d y_pred)%R).
  { apply mean_selection_nonneg. apply H. }
  rewrite (spec_loss_tau t1), (spec_loss_tau t2).
  split; [lra|]. split; [exact Hm|]. intros Ht. nra.
Qed.

Lemma loss_inputs_target_a : loss_inputs 1 1 target_a (T2 1 1 [[Fin (1 / 3)]]).
Proof.
  unfold loss_inputs.
  split; [lia|]. split; [lia|].
  split; [split; [reflexivity | repeat constructor]|].
  split; [split; [reflexivity | repeat constructor]|].
  do 4 (split; [reflexivity|]).
  split.
  { intros i j Hi Hj. cbn in Hi, Hj. destruct i as [|i]; [|lia].
    do 7 (destruct j as [|j]; [eexists; reflexivity|]). lia. }
  split.
  { each_entry 1. }
  intros i j Hi [Hj1 Hj2]. destruct i as [|i]; [|lia].
  do 5 (destruct j as [|j];
        [first [lia | eexists; split; [reflexivity | unfold eps; lra]] |]).
  lia.
Qed.

Lemma my_loss_affine_in_tau_witness :
  exists v1 v2,
    my_loss (Fin (1 / 10)) target_a (T2 1 1 [[Fin (1 / 3)]]) = Ok (Fin v1) /\
    my_loss (Fin (1 / 2)) target_a (T2 1 1 [[Fin (1 / 3)]]) = Ok (Fin v2) /\
    (v1 <= v2)%R.
Proof.
  destruct (@my_loss_affine_in_tau (1 / 10) (1 / 2) 1 1 target_a (T2 1 1 [[Fin (1 / 3)]])
              loss_inputs_target_a)
    as (v1 & v2 & H1 & H2 & _ & _ & Hle).
  exists v1, v2. split; [exact H1|]. split; [exact H2|]. apply Hle. lra.
Defined.

(** X2.  When the predictor's and the baseline's columns of the target are
    equal the reward vanishes, and the loss is the sparsity penalty alone,
    [tau] times the average selection probability, whatever the sampled
    selection and the labels. *)
Theorem my_loss_zero_advantage (t : R) (n d : nat) (y_true y_pred : tensor2) :
  loss_inputs n d y_true y_pred ->
  (forall i c, i < n -> c < 2 -> entry y_true i (d + c) = entry y_true i (d + 2 + c)) ->
  my_loss (Fin t) y_true y_pred = Ok (Fin (t * mean_selection n d y_pred)).
Proof.
  intros H Heq. rewrite (my_loss_value t H). do 2 f_equal.
  rewrite spec_loss_tau.
  assert (E : spec_loss 0 d y_true y_pred n = 0%R).
  { unfold spec_loss.
    rewrite (@rsum_ext n _ (fun _ => 0%R)).
    - rewrite rsum_zero. unfold Rdiv. lra.
    - intros i Hi. unfold spec_surrogate, spec_reward.
      rewrite (@rsum_ext 2 (fun c => spec_y_final d y_true i c * ln (spec_dis_prob d y_true i c + eps))%R
                           (fun c => spec_y_final d y_true i c * ln (spec_val_prob d y_true i c + eps))%R).
      + lra.
      + intros c Hc. unfold spec_dis_prob, spec_val_prob, at2.
        now rewrite (Heq i c Hi Hc). }
  rewrite E. lra.
Qed.

Lemma loss_inputs_target_even : loss_inputs 1 1 target_even (T2 1 1 [[Fin (1 / 3)]]).
Proof.
  unfold loss_inputs.
  split; [lia|]. split; [lia|].
  split; [split; [reflexivity | repeat constructor]|].
  split; [split; [reflexivity | repeat constructor]|].
  do 4 (split; [reflexivity|]).
  split.
  { intros i j Hi Hj. cbn in Hi, Hj. destruct i as [|i]; [|lia].
    do 7 (destruct j as [|j]; [eexists; reflexivity|]). lia. }
  split.
  { each_entry 1. }
  intros i j Hi [Hj1 Hj2]. destruct i as [|i]; [|lia].
  do 5 (destruct j as [|j];
        [first [lia | eexists; split; [reflexivity | unfold eps; lra]] |]).
  lia.
Qed.

Lemma my_loss_zero_advantage_witness :
  my_loss (Fin (1 / 10)) target_even (T2 1 1 [[Fin (1 / 3)]])
  = Ok (Fin (1 / 10 * mean_selection 1 1 (T2 1 1 [[Fin (1 / 3)]]))).
Proof.
  apply (@my_loss_zero_advantage (1 / 10) 1 1 target_even (T2 1 1 [[Fin (1 / 3)]])
           loss_inputs_target_even).
  intros i c Hi Hc. destruct i as [|i]; [|lia].
  destruct c as [|[|c]]; [reflexivity | reflexivity | lia].
Defined.

(** X3.  Exchanging the predictor's and the baseline's columns of the
    target changes the sign of the reward: the two losses add up to twice the
    sparsity penalty. *)
Theorem my_loss_exchange_critics (t : R) (n d : nat) (y_true y_true' y_pred : tensor2) :
  loss_inputs n d y_true y_pred ->
  loss_inputs n d y_true' y_pred ->
  (forall i j, i < n -> j < d -> entry y_true' i j = entry y_true i j) ->
  (forall i c, i < n -> c < 2 ->
     entry y_true' i (d + c) = entry y_true i (d + 2 + c) /\
     entry y_true' i (d + 2 + c) = entry y_true i (d + c) /\
     entry y_true' i (d + 4 + c) = entry y_true i (d + 4 + c)) ->
  exists v v',
    my_loss (Fin t) y_true y_pred = Ok (Fin v) /\
    my_loss (Fin t) y_true' y_pred = Ok (Fin v') /\
    (v + v' = 2 * (t * mean_selection n d y_pred))%R.
Proof.
  intros H H' Hsel Hex.
  exists (spec_loss t d y_true y_pred n), (spec_loss t d y_true' y_pred n).
  split; [now apply my_loss_value|]. split; [now apply my_loss_value|].
  rewrite (spec_loss_tau t n d y_true), (spec_loss_tau t n d y_true').
  assert (E : spec_loss 0 d y_true' y_pred n = (- spec_loss 0 d y_true y_pred n)%R).
  { unfold spec_loss.
    rewrite (@rsum_ext n (spec_surrogate 0 d y_true' y_pred)
                        (fun i => (0 - 1 * spec_surrogate 0 d y_true y_pred i))%R).
    - rewrite rsum_lin, rsum_zero. unfold Rdiv. lra.
    - intros i Hi. unfold spec_surrogate.
      assert (Er : spec_reward d y_true' i = (- spec_reward d y_true i)%R).
      { unfold spec_reward.
        rewrite (@rsum_ext 2
          (fun c => spec_y_final d y_true' i c * ln (spec_dis_prob d y_true' i c + eps))%R
          (fun c => spec_y_final d y_true i c * ln (spec_val_prob d y_true i c + eps))%R).
        2:{ intros c Hc. destruct (Hex i c Hi Hc) as (E1 & E2 & E3).
            unfold spec_y_final, spec_dis_prob, spec_val_prob, at2.
            now rewrite E1, E3. }
        rewrite (@rsum_ext 2
          (fun c => spec_y_final d y_true' i c * ln (spec_val_prob d y_true' i c + eps))%R
          (fun c => spec_y_final d y_true i c * ln (spec_dis_prob d y_true i c + eps))%R).
        2:{ intros c Hc. destruct (Hex i c Hi Hc) as (E1 & E2 & E3).
            unfold spec_y_final, spec_dis_prob, spec_val_prob, at2.
            now rewrite E2, E3. }
        lra. }
      rewrite Er.
      rewrite (@rsum_ext d
        (fun j => spec_sel_prob y_true' i j * ln (at2 y_pred i j + eps)
                  + (1 - spec_sel_prob y_true' i j) * ln (1 - at2 y_pred i j + eps))%R
        (fun j => spec_sel_prob y_true i j * ln (at2 y_pred i j + eps)
                  + (1 - spec_sel_prob y_true i j) * ln (1 - at2 y_pred i j + eps))%R).
      2:{ intros j Hj. unfold spec_sel_prob, at2. now rewrite (Hsel i j Hi Hj). }
      lra. }
  rewrite E. lra.
Qed.

Lemma loss_inputs_target_a_exchanged :
  loss_inputs 1 1 target_a_exchanged (T2 1 1 [[Fin (1 / 3)]]).
Proof.
  unfold loss_inputs.
  split; [lia|]. split; [lia|].
  split; [split; [reflexivity | repeat constructor]|].
  split; [split; [reflexivity | repeat constructor]|].
  do 4 (split; [reflexivity|]).
  split.
  { intros i j Hi Hj. cbn in Hi, Hj. destruct i as [|i]; [|lia].
    do 7 (destruct j as [|j]; [eexists; reflexivity|]). lia. }
  split.
  { each_entry 1. }
  intros i j Hi [Hj1 Hj2]. destruct i as [|i]; [|lia].
  do 5 (destruct j as [|j];
        [first [lia | eexists; split; [reflexivity | unfold eps; lra]] |]).
  lia.
Qed.

Lemma my_loss_exchange_critics_witness :
  exists v v',
    my_loss (Fin (1 / 10)) target_a (T2 1 1 [[Fin (1 / 3)]]) = Ok (Fin v) /\
    my_loss (Fin (1 / 10)) target_a_exchanged (T2 1 1 [[Fin (1 / 3)]]) = Ok (Fin v') /\
    (v + v' = 2 * (1 / 10 * mean_selection 1 1 (T2 1 1 [[Fin (1 / 3)]])))%R.
Proof.
  apply (@my_loss_exchange_critics (1 / 10) 1 1 target_a target_a_exchanged
           (T2 1 1 [[Fin (1 / 3)]]) loss_inputs_target_a loss_inputs_target_a_exchanged).
  - intros i j Hi Hj. destruct i as [|i]; [|lia]. destruct j as [|j]; [reflexivity|lia].
  - intros i c Hi Hc. destruct i as [|i]; [|lia].
    destruct c as [|[|c]]; [repeat split | repeat split | lia].
Defined.

(** ** Shapes the loss accepts and rejects *)

(** X5.  A composite target with no label column, or with three or more,
    beyond the [d + 4] columns of selection, predictor and baseline is
    rejected with a shape error at the first product, whatever the rows hold
    and whatever the selector output. *)
Theorem my_loss_rejects_label_width (tau0 : fnum) (y_true y_pred : tensor2) (k : nat) :
  dim1 y_true = dim1 y_pred + 4 + k ->
  k = 0 \/ 3 <= k ->
  my_loss tau0 y_true y_pred = Raise (InvalidArgumentError "Incompatible shapes").
Proof.
  intros Hw Hk. unfold my_loss. cbv zeta.
  unfold elementwise2 at 1.
  cbn [dim0 dim1 slice_cols log2d add_scalar map2d].
  rewrite bcast_len_same.
  replace (dim1 y_true - Nat.min (dim1 y_pred + 4) (dim1 y_true)) with k by lia.
  replace (Nat.min (dim1 y_pred + 2) (dim1 y_true) - Nat.min (dim1 y_pred) (dim1 y_true))
    with 2 by lia.
  assert (E : bcast_len k 2 = None).
  { unfold bcast_len.
    destruct (Nat.eqb_spec k 2); [lia|].
    destruct (Nat.eqb_spec k 1); [lia|]. reflexivity. }
  rewrite E. reflexivity.
Qed.

Lemma my_loss_rejects_label_width_witness :
  my_loss (Fin (1 / 10)) (T2 1 5 [[Fin (1 / 2); Fin (1 / 2); Fin (1 / 2); Fin (1 / 2); Fin (1 / 2)]])
          (T2 1 1 [[Fin (1 / 3)]])
  = Raise (InvalidArgumentError "Incompatible shapes").
Proof.
  apply (@my_loss_rejects_label_width (Fin (1 / 10))
           (T2 1 5 [[Fin (1 / 2); Fin (1 / 2); Fin (1 / 2); Fin (1 / 2); Fin (1 / 2)]])
           (T2 1 1 [[Fin (1 / 3)]]) 0).
  - reflexivity.
  - left. reflexivity.
Defined.

Lemma elementwise2_tab_column (g : fnum -> fnum -> fnum) (n : nat)
      (f1 f2 : nat -> nat -> fnum) :
  elementwise2 g (tab n 1 f1) (tab n 2 f2)
  = Ok (tab n 2 (fun i j => g (f1 i 0) (f2 i j))).
Proof.
  unfold elementwise2, tab; cbn [dim0 dim1 rows].
  rewrite bcast_len_same. cbn [bcast_len Nat.eqb]. do 2 f_equal.
  rewrite !stretch_same by now rewrite length_map, length_seq.
  rewrite zip_with_map. apply map_ext. intros i. reflexivity.
Qed.

Lemma rewards_of_single_label (n d : nat) (T : nat -> nat -> fnum) :
  Reward_of d (tab n (d + 5) T)
  = Reward_of d (tab n (d + 6)
                     (fun i j => if j <? d + 5 then T i j else T i (d + 4))).
Proof.
  unfold Reward_of, Reward1_of, Reward2_of.
  set (T' := fun i j => if j <? d + 5 then T i j else T i (d + 4)).
  assert (Hval : forall w U, d + 4 <= w ->
             slice_cols (d + 2) (Some (d + 4)) (tab n w U)
             = tab n 2 (fun i j => U i (d + 2 + j))).
  { intros w U Hw. replace (Some (d + 4)) with (Some (d + 2 + 2)) by (f_equal; lia).
    apply slice_cols_tab; lia. }
  rewrite (@slice_cols_tab d 2 n (d + 5) T) by lia.
  rewrite (@slice_cols_tab d 2 n (d + 6) T') by lia.
  rewrite (Hval (d + 5) T) by lia. rewrite (Hval (d + 6) T') by lia.
  rewrite (@slice_cols_open_tab (d + 4) n (d + 5) T) by lia.
  rewrite (@slice_cols_open_tab (d + 4) n (d + 6) T') by lia.
  replace (d + 5 - (d + 4)) with 1 by lia.
  replace (d + 6 - (d + 4)) with 2 by lia.
  unfold add_scalar, log2d. rewrite !map2d_tab.
  rewrite !elementwise2_tab_column, !elementwise2_tab. cbn [bind].
  assert (E : forall off,
             off + 2 <= d + 4 ->
             tab n 2 (fun i j => fmul (T i (d + 4 + 0)) (flog (fadd (T i (off + j)) (Fin eps))))
             = tab n 2 (fun i j => fmul (T' i (d + 4 + j)) (flog (fadd (T' i (off + j)) (Fin eps))))).
  { intros off Hoff. apply tab_ext. intros i j Hi Hj. unfold T'.
    destruct (Nat.ltb_spec (off + j) (d + 5)); [|lia].
    replace (d + 4 + 0) with (d + 4) by lia.
    destruct (Nat.ltb_spec (d + 4 + j) (d + 5)) as [H1|H1].
    - replace (d + 4 + j) with (d + 4) by lia. reflexivity.
    - reflexivity. }
  rewrite (E d) by lia. rewrite (E (d + 2)) by lia. reflexivity.
Qed.

(** X4.  A composite target with a single label column is not rejected:
    the column is broadcast over the two classes, and the loss is the one of
    the target in which the label column is written twice. *)
Theorem my_loss_single_label_column (tau0 : fnum) (n d : nat) (y_true y_pred : tensor2) :
  wf2 y_true -> dim0 y_true = n -> dim1 y_true = d + 5 -> dim1 y_pred = d ->
  my_loss tau0 y_true y_pred
  = my_loss tau0
      (tab n (d + 6) (fun i j => if j <? d + 5 then entry y_true i j
                                 else entry y_true i (d + 4)))
      y_pred.
Proof.
  intros Hwf Hn Hw Hd.
  rewrite !my_loss_split. rewrite Hd.
  pose proof (wf2_as_tab Hwf Hn Hw) as E.
  transitivity
    (Reward <- Reward_of d (tab n (d + 5) (entry y_true)) ;;
     policy_part tau0 (slice_cols 0 (Some d) (tab n (d + 5) (entry y_true))) y_pred Reward);
    [now rewrite <- E|].
  rewrite rewards_of_single_label.
  pose proof (@slice_cols_tab 0 d n (d + 5) (entry y_true)) as H1.
  pose proof (@slice_cols_tab 0 d n (d + 6)
                (fun i j => if j <? d + 5 then entry y_true i j
                            else entry y_true i (d + 4))) as H2.
  cbn [Nat.add] in H1, H2. rewrite H1, H2 by lia.
  replace (tab n d (fun i j => if j <? d + 5 then entry y_true i j
                               else entry y_true i (d + 4)))
    with (tab n d (fun i j => entry y_true i j)); [reflexivity|].
  apply tab_ext. intros i j Hi Hj.
  destruct (Nat.ltb_spec j (d + 5)); [reflexivity|lia].
Qed.

Lemma my_loss_single_label_column_witness :
  my_loss (Fin (1 / 10)) target_one_label (T2 1 1 [[Fin (1 / 3)]])
  = my_loss (Fin (1 / 10))
      (tab 1 (1 + 6) (fun i j => if j <? 1 + 5 then entry target_one_label i j
                                 else entry target_one_label i (1 + 4)))
      (T2 1 1 [[Fin (1 / 3)]]).
Proof.
  apply (@my_loss_single_label_column (Fin (1 / 10)) 1 1 target_one_label
           (T2 1 1 [[Fin (1 / 3)]])).
  - split; [reflexivity | repeat constructor].
  - reflexivity.
  - reflexivity.
  - reflexivity.
Defined.

(** ** A finite loss has taken no logarithm of a non-positive number *)

Lemma fadd_finite_inv (a b : fnum) : is_finite (fadd a b) -> is_finite a /\ is_finite b.
Proof. destruct a, b; cbn; intros [? H]; try discriminate; split; eexists; reflexivity. Qed.

Lemma fsub_finite_inv (a b : fnum) : is_finite (fsub a b) -> is_finite a /\ is_finite b.
Proof. destruct a, b; cbn; intros [? H]; try discriminate; split; eexists; reflexivity. Qed.

Lemma fmul_finite_inv (a b : fnum) : is_finite (fmul a b) -> is_finite a /\ is_finite b.
Proof. destruct a, b; cbn; intros [? H]; try discriminate; split; eexists; reflexivity. Qed.

Lemma fneg_finite_inv (a : fnum) : is_finite (fneg a) -> is_finite a.
Proof. destruct a; cbn; intros [? H]; try discriminate; eexists; reflexivity. Qed.

Lemma fdiv_count_finite_inv (a : fnum) (k : nat) :
  is_finite (fdiv_count a k) -> is_finite a /\ 0 < k.
Proof.
  destruct a, k; cbn; intros [? H]; try discriminate.
  split; [eexists; reflexivity | lia].
Qed.

Lemma flog_finite_inv (a : fnum) :
  is_finite (flog a) -> exists x, a = Fin x /\ (0 < x)%R.
Proof.
  destruct a as [x|]; cbn; intros [? H]; [|discriminate].
  destruct (Rlt_dec 0 x); [|discriminate]. now exists x.
Qed.

Lemma fsum_finite_inv (l : list fnum) :
  is_finite (fsum l) -> forall a, In a l -> is_finite a.
Proof.
  induction l as [|x l IH]; intros H a Ha; [destruct Ha|].
  change (fsum (x :: l)) with (fadd x (fsum l)) in H.
  apply fadd_finite_inv in H. destruct H as [Hx Hl].
  destruct Ha as [<-|Ha]; [exact Hx | now apply IH].
Qed.

Lemma fsum_map_finite_inv (h : nat -> fnum) (k i : nat) :
  is_finite (fsum (map h (seq 0 k))) -> i < k -> is_finite (h i).
Proof.
  intros H Hi. apply (fsum_finite_inv _ H).
  apply in_map. apply in_seq. lia.
Qed.

(** X6.  On a target of width [d + 6] and an output of width [d], when
    [my_loss] returns a finite value every argument of a logarithm was a
    positive finite number: a logarithm of zero or of a negative number, or a
    NaN anywhere under one, always shows in the result, even under a zero
    weight. *)
Theorem my_loss_finite_only_if_positive_logs
        (tau0 : fnum) (y_true y_pred : tensor2) (n d : nat) (v : R) :
  wf2 y_true -> wf2 y_pred ->
  dim0 y_true = n -> dim1 y_true = d + 6 -> dim0 y_pred = n -> dim1 y_pred = d ->
  my_loss tau0 y_true y_pred = Ok (Fin v) ->
  Forall positive_entries (log_arguments y_true y_pred).
Proof.
  intros Ht Hp Hn Hw Hn' Hd Hv.
  rewrite (my_loss_wf tau0 Ht Hp Hn Hw Hn' Hd) in Hv.
  apply Ok_inj in Hv.
  assert (Hfin : is_finite (loss_index_form tau0 n d (entry y_true) (entry y_pred)))
    by (eexists; exact Hv).
  clear Hv. unfold loss_index_form in Hfin. cbv zeta in Hfin.
  apply fdiv_count_finite_inv in Hfin. destruct Hfin as [Hsum _].
  assert (Hrow : forall i, i < n ->
    (forall c, c < 2 -> exists x, fadd (entry y_true i (d + c)) (Fin eps) = Fin x /\ (0 < x)%R) /\
    (forall c, c < 2 -> exists x, fadd (entry y_true i (d + 2 + c)) (Fin eps) = Fin x /\ (0 < x)%R) /\
    (forall j, j < d -> exists x, fadd (entry y_pred i j) (Fin eps) = Fin x /\ (0 < x)%R) /\
    (forall j, j < d -> exists x,
        fadd (fsub (Fin 1) (entry y_pred i j)) (Fin eps) = Fin x /\ (0 < x)%R)).
  { intros i Hi.
    pose proof (fsum_map_finite_inv _ Hsum Hi) as H. cbv beta in H.
    apply fneg_finite_inv, fsub_finite_inv in H. destruct H as [H _].
    apply fmul_finite_inv in H. destruct H as [Hrew Hlik].
    apply fsub_finite_inv in Hrew. destruct Hrew as [H1 H2].
    split; [|split; [|split]].
    - intros c Hc. pose proof (fsum_map_finite_inv _ H1 Hc) as H. cbv beta in H.
      apply fmul_finite_inv in H. destruct H as [_ H]. now apply flog_finite_inv.
    - intros c Hc. pose proof (fsum_map_finite_inv _ H2 Hc) as H. cbv beta in H.
      apply fmul_finite_inv in H. destruct H as [_ H]. now apply flog_finite_inv.
    - intros j Hj. pose proof (fsum_map_finite_inv _ Hlik Hj) as H. cbv beta in H.
      apply fadd_finite_inv in H. destruct H as [H _].
      apply fmul_finite_inv in H. destruct H as [_ H]. now apply flog_finite_inv.
    - intros j Hj. pose proof (fsum_map_finite_inv _ Hlik Hj) as H. cbv beta in H.
      apply fadd_finite_inv in H. destruct H as [_ H].
      apply fmul_finite_inv in H. destruct H as [_ H]. now apply flog_finite_inv. }
  unfold log_arguments. cbv zeta.
  pose proof (wf2_tab Ht) as Et. rewrite Hn, Hw in Et.
  pose proof (wf2_tab Hp) as Ep. rewrite Hn', Hd in Ep.
  rewrite Hd.
  assert (Hval : slice_cols (d + 2) (Some (d + 4)) (tab n (d + 6) (entry y_true))
                 = tab n 2 (fun i j => entry y_true i (d + 2 + j))).
  { replace (Some (d + 4)) with (Some (d + 2 + 2)) by (f_equal; lia).
    apply slice_cols_tab; lia. }
  rewrite Et at 1 2. rewrite Ep at 1 2.
  rewrite (@slice_cols_tab d 2 n (d + 6) (entry y_true)) by lia.
  rewrite Hval.
  unfold add_scalar, rsub_scalar. rewrite !map2d_tab.
  repeat constructor; apply positive_entries_tab; intros i j Hi Hj;
    destruct (Hrow i Hi) as (R1 & R2 & R3 & R4); auto.
Qed.

Lemma my_loss_finite_only_if_positive_logs_witness :
  Forall positive_entries (log_arguments target_a (T2 1 1 [[Fin (1 / 3)]])).
Proof.
  apply (@my_loss_finite_only_if_positive_logs (Fin (1 / 10)) target_a
           (T2 1 1 [[Fin (1 / 3)]]) 1 1
           (spec_loss (1 / 10) 1 target_a (T2 1 1 [[Fin (1 / 3)]]) 1)).
  - split; [reflexivity | repeat constructor].
  - split; [reflexivity | repeat constructor].
  - reflexivity.
  - reflexivity.
  - reflexivity.
  - reflexivity.
  - exact (my_loss_value (1 / 10) loss_inputs_target_a).
Defined.

(** * More on the sampler and the training loop *)

Lemma invalid_prob_false (a : fnum) : invalid_prob a -> valid_prob a = false.
Proof.
  intros [->|[p [-> [H|H]]]]; [reflexivity| |]; unfold valid_prob.
  - destruct (Rle_dec 0 p); [lra | reflexivity].
  - destruct (Rle_dec 0 p); [|reflexivity].
    destruct (Rle_dec p 1); [lra | reflexivity].
Qed.

Lemma forallb_valid_entry (t : tensor2) (i j : nat) :
  wf2 t -> i < dim0 t -> j < dim1 t ->
  forallb (forallb valid_prob) (rows t) = true -> valid_prob (entry t i j) = true.
Proof.
  intros [Hn Hd] Hi Hj H. rewrite forallb_forall in H.
  assert (Hin : In (nth i (rows t) []) (rows t)) by (apply nth_In; lia).
  specialize (H _ Hin). rewrite forallb_forall in H. apply H.
  unfold entry. apply nth_In.
  rewrite Forall_forall in Hd. rewrite (Hd _ Hin). exact Hj.
Qed.

Lemma invalid_entry_detected (t : tensor2) (i j : nat) :
  wf2 t -> i < dim0 t -> j < dim1 t -> invalid_prob (entry t i j) ->
  forallb (forallb valid_prob) (rows t) = false.
Proof.
  intros Hwf Hi Hj Hbad.
  destruct (forallb (forallb valid_prob) (rows t)) eqn:E; [|reflexivity].
  pose proof (forallb_valid_entry Hwf Hi Hj E) as Hv.
  rewrite (invalid_prob_false Hbad) in Hv. discriminate.
Qed.

(** X7.  [Sample_M] does not clip: a selection probability that is NaN,
    negative or above 1 anywhere in the matrix makes the call raise
    [ValueError], whatever the state of the random source. *)
Theorem Sample_M_rejects_invalid_probability (gen_prob : tensor2) (rs : np_random)
        (i j : nat) :
  wf2 gen_prob -> i < dim0 gen_prob -> j < dim1 gen_prob ->
  invalid_prob (entry gen_prob i j) ->
  Sample_M gen_prob rs = Raise (ValueError "p < 0, p > 1 or p is NaN").
Proof.
  intros Hwf Hi Hj Hbad. unfold Sample_M, binomial1. cbn [fst snd].
  rewrite !Nat.eqb_refl. cbn [andb negb].
  now rewrite (invalid_entry_detected Hwf Hi Hj Hbad).
Qed.

Lemma Sample_M_rejects_invalid_probability_witness :
  Sample_M (T2 1 2 [[Fin (1 / 2); NonFinite]]) Toy.rs0
  = Raise (ValueError "p < 0, p > 1 or p is NaN").
Proof.
  apply (@Sample_M_rejects_invalid_probability (T2 1 2 [[Fin (1 / 2); NonFinite]])
           Toy.rs0 0 1).
  - split; [reflexivity | repeat constructor].
  - cbn. lia.
  - cbn. lia.
  - left. reflexivity.
Defined.

Lemma take_rows_list_fail (idx : list nat) (rs : list (list fnum)) :
  Exists (fun k => length rs <= k) idx ->
  take_rows_list idx rs = Raise (IndexError "index is out of bounds for axis 0").
Proof.
  induction idx as [|k idx IH]; intros H; [inversion H|].
  cbn [take_rows_list].
  destruct (nth_error rs k) as [r|] eqn:E; [|reflexivity].
  inversion H as [? ? Hk|? ? Hrest]; subst.
  - apply nth_error_None in Hk. congruence.
  - rewrite (IH Hrest). reflexivity.
Qed.

Section TrainingExtras.
Variable weights : Type.
Variable optim : Type.
Variable init_weights : architecture -> weights.
Variable forward : architecture -> weights -> tensor2 -> res tensor2.
Variable fit : architecture -> loss_fn -> list string -> weights -> optim ->
               tensor2 -> tensor2 -> res (weights * optim * list fnum).

(** X9.  [train] does not check that the labels have as many rows as the
    features: as soon as an index drawn for the batch is beyond the rows of
    [y_train], the iteration stops with [IndexError], before any network is
    called: the state that comes with the exception differs from the
    starting one by the draws of [randint] only. *)
Theorem train_step_short_labels (x_train y_train : tensor2) (epoch k : nat)
        (s : state weights optim) :
  wf2 x_train -> 0 < dim0 x_train ->
  k < batch_size (self s) ->
  length (rows y_train) <= next_ints (random s) k mod dim0 x_train ->
  train_step forward fit x_train y_train epoch s
  = (Raise (IndexError "index is out of bounds for axis 0"),
     mkState (self s) (optimizer s)
             (RandomState (advance (batch_size (self s)) (next_ints (random s)))
                          (next_uniforms (random s)))
             (trace s)).
Proof.
  intros Hx HN Hk Hbad.
  unfold train_step, bindM, get_self, with_random, lift.
  rewrite (randint_ok (batch_size (self s)) (random s) HN).
  cbv beta iota. cbn [self optimizer random trace].
  destruct (take_rows_ok Hx (randint_range (batch_size (self s)) (random s) HN))
    as (x_batch & Ex & _).
  rewrite Ex. cbv beta iota.
  unfold take_rows. rewrite take_rows_list_fail; [reflexivity|].
  apply Exists_exists. exists (next_ints (random s) k mod dim0 x_train).
  split; [|exact Hbad].
  apply in_map_iff. exists k. split; [reflexivity|]. apply in_seq. lia.
Qed.

(** X12.  A selector whose output holds a NaN or a value outside [[0,1]]
    stops the iteration with [ValueError] at the sampling, before the
    predictor, the baseline or the selector is updated: the state that comes
    with the exception has the networks and the optimizer it started with,
    and the selector's query as its one new event. *)
Theorem train_step_invalid_selection (x_train y_train : tensor2) (epoch : nat)
        (s : state weights optim) (x_batch y_batch out : tensor2) (i j : nat) :
  0 < dim0 x_train ->
  take_rows (map (fun k => next_ints (random s) k mod dim0 x_train)
                 (seq 0 (batch_size (self s)))) x_train = Ok x_batch ->
  take_rows (map (fun k => next_ints (random s) k mod dim0 x_train)
                 (seq 0 (batch_size (self s)))) y_train = Ok y_batch ->
  predict forward (selector (self s)) x_batch = Ok out ->
  wf2 out -> i < dim0 out -> j < dim1 out -> invalid_prob (entry out i j) ->
  train_step forward fit x_train y_train epoch s
  = (Raise (ValueError "p < 0, p > 1 or p is NaN"),
     mkState (self s) (optimizer s)
             (RandomState (advance (batch_size (self s)) (next_ints (random s)))
                          (next_uniforms (random s)))
             (trace s ++ [Predict Selector x_batch out])).
Proof.
  intros HN Ex Ey Eout Hwf Hi Hj Hbad.
  unfold train_step, bindM, get_self, with_random, lift, do_predict.
  rewrite (randint_ok (batch_size (self s)) (random s) HN).
  cbv beta iota. cbn [self optimizer random trace model_of].
  rewrite Ex, Ey. cbv beta iota. cbn [self optimizer random trace model_of].
  rewrite Eout. cbv beta iota. cbn [self optimizer random trace model_of].
  unfold Sample_M, binomial1. cbn [fst snd].
  rewrite !Nat.eqb_refl. cbn [andb negb].
  now rewrite (invalid_entry_detected Hwf Hi Hj Hbad).
Qed.

End TrainingExtras.

Lemma train_step_short_labels_witness :
  train_step Toy.forward Toy.fit Toy.x1 Diverged.y_short 0 Toy.s0
  = (Raise (IndexError "index is out of bounds for axis 0"),
     mkState (self Toy.s0) (optimizer Toy.s0)
             (RandomState (advance (batch_size (self Toy.s0)) (next_ints (random Toy.s0)))
                          (next_uniforms (random Toy.s0)))
             (trace Toy.s0)).
Proof.
  apply (@train_step_short_labels Toy.weights Toy.optim Toy.forward Toy.fit
           Toy.x1 Diverged.y_short 0 0 Toy.s0).
  - split; [reflexivity | repeat constructor].
  - cbn. lia.
  - cbn. lia.
  - cbn. lia.
Defined.

Lemma train_step_invalid_selection_witness :
  train_step Diverged.forward Toy.fit Toy.x1 Toy.y1 0 Toy.s0
  = (Raise (ValueError "p < 0, p > 1 or p is NaN"),
     mkState (self Toy.s0) (optimizer Toy.s0)
             (RandomState (advance (batch_size (self Toy.s0)) (next_ints (random Toy.s0)))
                          (next_uniforms (random Toy.s0)))
             (trace Toy.s0 ++ [Predict Selector Toy.x1 (tab 1 1 (fun _ _ => NonFinite))])).
Proof.
  apply (@train_step_invalid_selection Toy.weights Toy.optim Diverged.forward Toy.fit
           Toy.x1 Toy.y1 0 Toy.s0 Toy.x1 Toy.y1
           (tab 1 1 (fun _ _ => NonFinite)) 0 0).
  - cbn. lia.
  - reflexivity.
  - reflexivity.
  - reflexivity.
  - apply wf2_of_tab.
  - cbn. lia.
  - cbn. lia.
  - left. reflexivity.
Defined.

(** * The evaluation metric *)

Lemma row_as_map (t : tensor2) (i : nat) :
  wf2 t -> i < dim0 t ->
  row t i = Ok (map (fun j => entry t i j) (seq 0 (dim1 t))).
Proof.
  intros [Hn Hd] Hi. unfold row.
  rewrite (nth_error_nth' (rows t) [] ) by lia. f_equal.
  assert (Hlen : length (nth i (rows t) []) = dim1 t).
  { rewrite Forall_forall in Hd. apply Hd, nth_In. lia. }
  rewrite (list_tab NonFinite (nth i (rows t) [])) at 1. now rewrite Hlen.
Qed.

Lemma np_multiply_map (d : nat) (f g : nat -> fnum) :
  np_multiply (map f (seq 0 d)) (map g (seq 0 d))
  = Ok (map (fun j => fmul (f j) (g j)) (seq 0 d)).
Proof.
  unfold np_multiply. rewrite !length_map, length_seq, bcast_len_same.
  rewrite !stretch_same by now rewrite length_map, length_seq.
  now rewrite zip_with_map.
Qed.

Lemma py_div_finite (x y : R) :
  y <> 0%R -> py_div (Fin x) (Fin y) = Return (Fin (x / y)).
Proof. intros H. unfold py_div. destruct (Req_dec_T y 0); [contradiction|reflexivity]. Qed.

(** One row of the loop, when both arrays have a row [i] of [d] entries
    between 0 and 1. *)
Lemma metric_row_at (d : nat) (score g_truth : tensor2) (i : nat) :
  wf2 score -> wf2 g_truth -> dim1 score = d -> dim1 g_truth = d ->
  i < dim0 score -> i < dim0 g_truth ->
  (forall j, j < d -> prob_entry score i j) ->
  (forall j, j < d -> prob_entry g_truth i j) ->
  metric_row score g_truth i
  = Return (Fin (tpr_row d score g_truth i), Fin (fdr_row d score g_truth i)).
Proof.
  intros Hsw Hgw Hs1 Hg1 His Hig Hs Hg.
  unfold metric_row.
  rewrite (row_as_map Hsw) by lia. rewrite (row_as_map Hgw) by lia.
  rewrite Hs1, Hg1. cbn [of_res pbind].
  unfold one_minus. rewrite map_map. rewrite !np_multiply_map. cbn [of_res pbind].
  rewrite (@fsum_Fin nat _ (fun j => (at2 score i j * at2 g_truth i j)%R)).
  2:{ intros j Hj. apply in_seq in Hj.
      destruct (prob_entry_at2 (Hs j ltac:(lia))) as [E1 _].
      destruct (prob_entry_at2 (Hg j ltac:(lia))) as [E2 _].
      now rewrite E1, E2. }
  rewrite (@fsum_Fin nat _ (fun j => at2 g_truth i j)).
  2:{ intros j Hj. apply in_seq in Hj.
      now destruct (prob_entry_at2 (Hg j ltac:(lia))) as [E2 _]. }
  rewrite (@fsum_Fin nat _ (fun j => (at2 score i j * (1 - at2 g_truth i j))%R)).
  2:{ intros j Hj. apply in_seq in Hj.
      destruct (prob_entry_at2 (Hs j ltac:(lia))) as [E1 _].
      destruct (prob_entry_at2 (Hg j ltac:(lia))) as [E2 _].
      now rewrite E1, E2. }
  rewrite (@fsum_Fin nat _ (fun j => at2 score i j)).
  2:{ intros j Hj. apply in_seq in Hj.
      now destruct (prob_entry_at2 (Hs j ltac:(lia))) as [E1 _]. }
  fold (rsum d (fun j => (at2 score i j * at2 g_truth i j)%R)).
  fold (rsum d (fun j => at2 g_truth i j)).
  fold (rsum d (fun j => (at2 score i j * (1 - at2 g_truth i j))%R)).
  fold (rsum d (fun j => at2 score i j)).
  fold (row_sum d g_truth i). fold (row_sum d score i). fold (row_dot d score g_truth i).
  cbn [fmul fadd].
  assert (Pg : (0 <= row_sum d g_truth i)%R).
  { apply rsum_nonneg. intros j Hj. destruct (prob_entry_at2 (Hg j Hj)) as [_ Hr]. lra. }
  assert (Ps : (0 <= row_sum d score i)%R).
  { apply rsum_nonneg. intros j Hj. destruct (prob_entry_at2 (Hs j Hj)) as [_ Hr]. lra. }
  pose proof eps_pos as He.
  rewrite py_div_finite by lra. cbn [pbind].
  rewrite py_div_finite by lra. cbn [pbind].
  reflexivity.
Qed.

Lemma metric_row_value (n d : nat) (score g_truth : tensor2) (i : nat) :
  metric_inputs n d score g_truth -> i < n ->
  metric_row score g_truth i
  = Return (Fin (tpr_row d score g_truth i), Fin (fdr_row d score g_truth i)).
Proof.
  intros (Hn & (Hsw & Hs0 & Hs1) & (Hgw & Hg0 & Hg1) & Hs & Hg) Hi.
  apply metric_row_at; try assumption; try lia; intros j Hj; auto.
Qed.

Lemma metric_rows_value (n d : nat) (score g_truth : tensor2) (l : list nat) :
  metric_inputs n d score g_truth -> Forall (fun i => i < n) l ->
  metric_rows score g_truth l
  = Return (map (fun i => Fin (tpr_row d score g_truth i)) l,
            map (fun i => Fin (fdr_row d score g_truth i)) l).
Proof.
  intros H Hl. induction l as [|i l IH]; [reflexivity|].
  inversion Hl; subst. cbn [metric_rows map].
  rewrite (metric_row_value H) by assumption. cbn [pbind].
  rewrite IH by assumption. reflexivity.
Qed.

Lemma np_mean_Fin (n : nat) (f : nat -> R) :
  0 < n -> np_mean (map (fun i => Fin (f i)) (seq 0 n)) = Fin (rmean n f).
Proof.
  intros Hn. unfold np_mean, reduce_mean.
  rewrite (@fsum_Fin nat _ f) by reflexivity.
  rewrite length_map, length_seq. destruct n; [lia|]. reflexivity.
Qed.

Lemma rmean_nonneg (n : nat) (f : nat -> R) :
  (forall i, i < n -> (0 <= f i)%R) -> (0 <= rmean n f)%R.
Proof.
  intros H. unfold rmean, Rdiv. apply Rmult_le_pos; [now apply rsum_nonneg|].
  destruct n; [cbn; rewrite Rinv_0; lra|].
  left. apply Rinv_0_lt_compat, lt_0_INR. lia.
Qed.

Lemma np_std_Fin (n : nat) (f : nat -> R) :
  0 < n -> np_std (map (fun i => Fin (f i)) (seq 0 n)) = Fin (rstd n f).
Proof.
  intros Hn. unfold np_std. rewrite np_mean_Fin by assumption.
  rewrite map_map. cbn [fsub fmul].
  rewrite (np_mean_Fin (fun i => (f i - rmean n f) * (f i - rmean n f))%R Hn).
  assert (Hnn : (0 <= rmean n (fun i => (f i - rmean n f) * (f i - rmean n f)))%R).
  { apply rmean_nonneg. intros i _. apply Rle_0_sqr. }
  unfold fsqrt, rstd.
  destruct (Rlt_dec _ 0) as [Hneg|_]; [lra | reflexivity].
Qed.

Lemma performance_metric_value (n d : nat) (score g_truth : tensor2) :
  metric_inputs n d score g_truth ->
  performance_metric score g_truth
  = Return (Fin (rmean n (tpr_row d score g_truth)),
            Fin (rmean n (fdr_row d score g_truth)),
            Fin (rstd n (tpr_row d score g_truth)),
            Fin (rstd n (fdr_row d score g_truth))).
Proof.
  intros H. pose proof H as (Hn & (_ & Hs0 & _) & _).
  unfold performance_metric. cbv zeta. rewrite Hs0.
  rewrite (metric_rows_value H).
  2:{ apply Forall_forall. intros i Hi. apply in_seq in Hi. lia. }
  cbn [pbind fst snd].
  now rewrite !np_mean_Fin, !np_std_Fin by assumption.
Qed.

Lemma rmean_lt (n : nat) (f : nat -> R) (b : R) :
  0 < n -> (forall i, i < n -> (f i < b)%R) -> (rmean n f < b)%R.
Proof.
  intros Hn H. unfold rmean.
  assert (Hs : forall k, 0 < k -> k <= n -> (rsum k f < INR k * b)%R).
  { induction k as [|k IH]; intros Hk Hle; [lia|].
    unfold rsum. rewrite seq_S, map_app, fold_right_app. cbn [map fold_right Nat.add].
    assert (G : forall l a, fold_right Rplus a (map f l)
                            = (fold_right Rplus 0 (map f l) + a)%R).
    { induction l as [|x l IHl]; intros a; cbn; [lra|]. rewrite IHl. lra. }
    rewrite G. fold (rsum k f). rewrite S_INR.
    pose proof (H k ltac:(lia)).
    destruct k as [|k'].
    - cbn. unfold rsum. cbn. lra.
    - specialize (IH ltac:(lia) ltac:(lia)). rewrite S_INR in *. lra. }
  specialize (Hs n Hn (le_n n)).
  assert (Hpos : (0 < INR n)%R) by (apply lt_0_INR; lia).
  unfold Rdiv. apply (Rmult_lt_reg_r (INR n)); [exact Hpos|].
  rewrite Rmult_assoc, Rinv_l by lra. lra.
Qed.

Lemma rate_bounds (num den : R) :
  (0 <= num <= den)%R -> (0 <= 100 * num / (den + eps) < 100)%R.
Proof.
  intros [H0 H1]. pose proof eps_pos as He.
  assert (Hd : (0 < den + eps)%R) by lra.
  split.
  - unfold Rdiv. apply Rmult_le_pos; [lra|]. left. now apply Rinv_0_lt_compat.
  - apply (Rmult_lt_reg_r (den + eps)); [exact Hd|].
    unfold Rdiv. rewrite Rmult_assoc, Rinv_l by lra. lra.
Qed.

Lemma tpr_row_bounds (n d : nat) (score g_truth : tensor2) (i : nat) :
  metric_inputs n d score g_truth -> i < n ->
  (0 <= tpr_row d score g_truth i < 100)%R.
Proof.
  intros (_ & _ & _ & Hs & Hg) Hi. unfold tpr_row. apply rate_bounds. split.
  - apply rsum_nonneg. intros j Hj.
    destruct (prob_entry_at2 (Hs i j Hi Hj)) as [_ H1].
    destruct (prob_entry_at2 (Hg i j Hi Hj)) as [_ H2]. nra.
  - apply rsum_le. intros j Hj.
    destruct (prob_entry_at2 (Hs i j Hi Hj)) as [_ H1].
    destruct (prob_entry_at2 (Hg i j Hi Hj)) as [_ H2]. nra.
Qed.

Lemma fdr_row_bounds (n d : nat) (score g_truth : tensor2) (i : nat) :
  metric_inputs n d score g_truth -> i < n ->
  (0 <= fdr_row d score g_truth i < 100)%R.
Proof.
  intros (_ & _ & _ & Hs & Hg) Hi. unfold fdr_row. apply rate_bounds. split.
  - apply rsum_nonneg. intros j Hj.
    destruct (prob_entry_at2 (Hs i j Hi Hj)) as [_ H1].
    destruct (prob_entry_at2 (Hg i j Hi Hj)) as [_ H2]. nra.
  - apply rsum_le. intros j Hj.
    destruct (prob_entry_at2 (Hs i j Hi Hj)) as [_ H1].
    destruct (prob_entry_at2 (Hg i j Hi Hj)) as [_ H2]. nra.
Qed.

(** X13.  On a score and a ground truth of the same shape with entries
    between 0 and 1 and at least one row, [performance_metric] raises no
    error (the [1e-8] keeps every divisor positive) and returns the means and
    standard deviations of the per-row rates; both means lie in [[0, 100)],
    so that even a perfect selection reports a true-positive rate below 100,
    and both deviations are non-negative. *)
Theorem performance_metric_range (n d : nat) (score g_truth : tensor2) :
  metric_inputs n d score g_truth ->
  exists tpr_mean fdr_mean tpr_std fdr_std,
    performance_metric score g_truth
    = Return (Fin tpr_mean, Fin fdr_mean, Fin tpr_std, Fin fdr_std) /\
    tpr_mean = rmean n (tpr_row d score g_truth) /\
    fdr_mean = rmean n (fdr_row d score g_truth) /\
    tpr_std = rstd n (tpr_row d score g_truth) /\
    fdr_std = rstd n (fdr_row d score g_truth) /\
    (0 <= tpr_mean < 100)%R /\ (0 <= fdr_mean < 100)%R /\
    (0 <= tpr_std)%R /\ (0 <= fdr_std)%R.
Proof.
  intros H. pose proof H as (Hn & _).
  do 4 eexists. split; [apply (performance_metric_value H)|].
  do 4 (split; [reflexivity|]).
  split; [|split; [|split]].
  - split.
    + apply rmean_nonneg. intros i Hi. apply (tpr_row_bounds H Hi).
    + apply rmean_lt; [exact Hn|]. intros i Hi. apply (tpr_row_bounds H Hi).
  - split.
    + apply rmean_nonneg. intros i Hi. apply (fdr_row_bounds H Hi).
    + apply rmean_lt; [exact Hn|]. intros i Hi. apply (fdr_row_bounds H Hi).
  - apply sqrt_pos.
  - apply sqrt_pos.
Qed.

Lemma metric_inputs_a : metric_inputs 2 2 score_a truth_a.
Proof.
  split; [lia|].
  split; [split; [split; [reflexivity | repeat constructor] | split; reflexivity]|].
  split; [split; [split; [reflexivity | repeat constructor] | split; reflexivity]|].
  split; intros i j Hi Hj;
    destruct i as [|[|i]]; try lia;
    destruct j as [|[|j]]; try lia;
    eexists; (split; [reflexivity | lra]).
Qed.

Lemma performance_metric_range_witness :
  exists tpr_mean fdr_mean tpr_std fdr_std,
    performance_metric score_a truth_a
    = Return (Fin tpr_mean, Fin fdr_mean, Fin tpr_std, Fin fdr_std) /\
    (0 <= tpr_mean < 100)%R /\ (0 <= fdr_mean < 100)%R.
Proof.
  destruct (@performance_metric_range 2 2 score_a truth_a metric_inputs_a)
    as (a & b & c & e & Hrun & _ & _ & _ & _ & Ha & Hb & _).
  exists a, b, c, e. split; [exact Hrun|]. split; assumption.
Defined.

Lemma rmean_zero (n : nat) (f : nat -> R) :
  (forall i, i < n -> f i = 0%R) -> rmean n f = 0%R.
Proof.
  intros H. unfold rmean. rewrite (@rsum_ext n f (fun _ => 0%R)) by assumption.
  rewrite rsum_zero. unfold Rdiv. lra.
Qed.

Lemma rstd_zero (n : nat) (f : nat -> R) :
  (forall i, i < n -> f i = 0%R) -> rstd n f = 0%R.
Proof.
  intros H. unfold rstd. rewrite (rmean_zero f H).
  rewrite rmean_zero; [apply sqrt_0|].
  intros i Hi. rewrite (H i Hi). lra.
Qed.

(** X14.  When no feature is selected in any row, the four results are
    zero: the false-discovery rate divides by [0 + 1e-8], not by zero. *)
Theorem performance_metric_nothing_selected (n d : nat) (score g_truth : tensor2) :
  metric_inputs n d score g_truth ->
  (forall i j, i < n -> j < d -> entry score i j = Fin 0) ->
  performance_metric score g_truth = Return (Fin 0, Fin 0, Fin 0, Fin 0).
Proof.
  intros H Hz. rewrite (performance_metric_value H).
  assert (Hs : forall i j, i < n -> j < d -> at2 score i j = 0%R).
  { intros i j Hi Hj. unfold at2. now rewrite Hz. }
  assert (T : forall i, i < n -> tpr_row d score g_truth i = 0%R).
  { intros i Hi. unfold tpr_row, row_dot.
    rewrite (@rsum_ext d _ (fun _ => 0%R)).
    - rewrite rsum_zero. unfold Rdiv. lra.
    - intros j Hj. rewrite Hs by assumption. lra. }
  assert (F : forall i, i < n -> fdr_row d score g_truth i = 0%R).
  { intros i Hi. unfold fdr_row.
    rewrite (@rsum_ext d _ (fun _ => 0%R)).
    - rewrite rsum_zero. unfold Rdiv. lra.
    - intros j Hj. rewrite Hs by assumption. lra. }
  now rewrite (rmean_zero _ T), (rmean_zero _ F), (rstd_zero _ T), (rstd_zero _ F).
Qed.

Lemma metric_inputs_none : metric_inputs 2 2 score_none truth_a.
Proof.
  split; [lia|].
  split; [split; [split; [reflexivity | repeat constructor] | split; reflexivity]|].
  split; [split; [split; [reflexivity | repeat constructor] | split; reflexivity]|].
  split; intros i j Hi Hj;
    destruct i as [|[|i]]; try lia;
    destruct j as [|[|j]]; try lia;
    eexists; (split; [reflexivity | lra]).
Qed.

Lemma performance_metric_nothing_selected_witness :
  performance_metric score_none truth_a = Return (Fin 0, Fin 0, Fin 0, Fin 0).
Proof.
  apply (@performance_metric_nothing_selected 2 2 score_none truth_a metric_inputs_none).
  intros i j Hi Hj.
  destruct i as [|[|i]]; try lia; destruct j as [|[|j]]; try lia; reflexivity.
Defined.

(** X15.  When every selected feature is a relevant one (in each entry the
    score is 0 or the ground truth is 1), the mean and the standard
    deviation of the false-discovery rate are zero. *)
Theorem performance_metric_no_false_discovery (n d : nat) (score g_truth : tensor2) :
  metric_inputs n d score g_truth ->
  (forall i j, i < n -> j < d -> entry score i j = Fin 0 \/ entry g_truth i j = Fin 1) ->
  exists tpr_mean tpr_std,
    performance_metric score g_truth = Return (Fin tpr_mean, Fin 0, Fin tpr_std, Fin 0).
Proof.
  intros H Hsel. rewrite (performance_metric_value H).
  assert (F : forall i, i < n -> fdr_row d score g_truth i = 0%R).
  { intros i Hi. unfold fdr_row.
    rewrite (@rsum_ext d _ (fun _ => 0%R)).
    - rewrite rsum_zero. unfold Rdiv. lra.
    - intros j Hj. unfold at2.
      destruct (Hsel i j Hi Hj) as [E|E]; rewrite E; cbn [real_of]; lra. }
  rewrite (rmean_zero _ F), (rstd_zero _ F). eauto.
Qed.

Lemma performance_metric_no_false_discovery_witness :
  exists tpr_mean tpr_std,
    performance_metric score_a truth_a = Return (Fin tpr_mean, Fin 0, Fin tpr_std, Fin 0).
Proof.
  apply (@performance_metric_no_false_discovery 2 2 score_a truth_a metric_inputs_a).
  intros i j Hi Hj.
  destruct i as [|[|i]]; try lia; destruct j as [|[|j]]; try lia;
    first [left; reflexivity | right; reflexivity].
Defined.

(** X16.  On a score with no row the loop does nothing and the four results
    are NaN, the mean of an empty array; the ground truth is not read. *)
Theorem performance_metric_no_row (score g_truth : tensor2) :
  dim0 score = 0 ->
  performance_metric score g_truth
  = Return (NonFinite, NonFinite, NonFinite, NonFinite).
Proof. intros H. unfold performance_metric. rewrite H. reflexivity. Qed.

Lemma performance_metric_no_row_witness :
  performance_metric (T2 0 2 []) truth_a
  = Return (NonFinite, NonFinite, NonFinite, NonFinite).
Proof. apply (@performance_metric_no_row (T2 0 2 []) truth_a). reflexivity. Defined.

Lemma metric_rows_throw (score g_truth : tensor2) (l1 l2 : list nat) (i : nat)
      (r : list fnum * list fnum) (e : py_error) :
  metric_rows score g_truth l1 = Return r ->
  metric_row score g_truth i = Throw e ->
  metric_rows score g_truth (l1 ++ i :: l2) = Throw e.
Proof.
  revert r. induction l1 as [|k l1 IH]; intros r H1 Hi.
  - cbn [app metric_rows]. rewrite Hi. reflexivity.
  - cbn [app metric_rows] in *.
    destruct (metric_row score g_truth k) as [rk|ek]; cbn [pbind] in *; [|discriminate].
    destruct (metric_rows score g_truth l1) as [r1|e1]; cbn [pbind] in *; [|discriminate].
    rewrite (IH r1 eq_refl Hi). reflexivity.
Qed.

(** X17.  [performance_metric] takes its number of rows from the score
    alone: with a ground truth of fewer rows, the first missing row raises
    [IndexError] after the rows before it have been evaluated. *)
Theorem performance_metric_short_ground_truth (n m d : nat) (score g_truth : tensor2) :
  has_shape score n d -> has_shape g_truth m d -> m < n ->
  (forall i j, i < m -> j < d -> prob_entry score i j) ->
  (forall i j, i < m -> j < d -> prob_entry g_truth i j) ->
  performance_metric score g_truth
  = Throw (Numpy (IndexError "index is out of bounds for axis 0")).
Proof.
  intros (Hsw & Hs0 & Hs1) (Hgw & Hg0 & Hg1) Hm Hs Hg.
  unfold performance_metric. cbv zeta. rewrite Hs0.
  replace n with (m + S (n - m - 1)) by lia.
  rewrite seq_app. cbn [seq Nat.add].
  assert (Hpre : metric_rows score g_truth (seq 0 m)
                 = Return (map (fun i => Fin (tpr_row d score g_truth i)) (seq 0 m),
                           map (fun i => Fin (fdr_row d score g_truth i)) (seq 0 m))).
  { assert (G : forall l, Forall (fun i => i < m) l ->
                metric_rows score g_truth l
                = Return (map (fun i => Fin (tpr_row d score g_truth i)) l,
                          map (fun i => Fin (fdr_row d score g_truth i)) l)).
    { induction l as [|i l IH]; intros Hl; [reflexivity|].
      apply Forall_cons_iff in Hl. destruct Hl as [Hi Hl]. cbn [metric_rows map].
      rewrite (@metric_row_at d score g_truth i);
        [| assumption | assumption | assumption | assumption | lia | lia
         | intros j Hj; apply Hs; assumption
         | intros j Hj; apply Hg; assumption ].
      cbn [pbind]. rewrite IH by assumption. reflexivity. }
    apply G. apply Forall_forall. intros i Hi. apply in_seq in Hi. lia. }
  rewrite (@metric_rows_throw score g_truth (seq 0 m) (seq (S m) (n - m - 1)) m _
             (Numpy (IndexError "index is out of bounds for axis 0")) Hpre);
    [reflexivity|].
  unfold metric_row. rewrite (row_as_map Hsw) by lia. cbn [of_res pbind].
  unfold row. destruct Hgw as [Hlen _].
  assert (E : nth_error (rows g_truth) m = None) by (apply nth_error_None; lia).
  rewrite E. reflexivity.
Qed.

Lemma performance_metric_short_ground_truth_witness :
  performance_metric score_a (T2 1 2 [[Fin 1; Fin 1]])
  = Throw (Numpy (IndexError "index is out of bounds for axis 0")).
Proof.
  apply (@performance_metric_short_ground_truth 2 1 2 score_a (T2 1 2 [[Fin 1; Fin 1]])).
  - split; [split; [reflexivity | repeat constructor] | split; reflexivity].
  - split; [split; [reflexivity | repeat constructor] | split; reflexivity].
  - lia.
  - intros i j Hi Hj.
    destruct i as [|i]; try lia; destruct j as [|[|j]]; try lia;
      eexists; (split; [reflexivity | lra]).
  - intros i j Hi Hj.
    destruct i as [|i]; try lia; destruct j as [|[|j]]; try lia;
      eexists; (split; [reflexivity | lra]).
Defined.
